(** * Nixe Watch CTS: calendar clock, Current-Time codec and link handlers

    A shallow embedding of [src/main.cpp] (the revision that accepts remote
    writes of the Current Time characteristic) together with the properties
    of its calendar rollover engine, its 10-byte wire layout and its
    connect / disconnect / written handlers.

    Conventions.
    - C integers are mathematical integers [Z]; every store into a fixed
      width variable is written out as a reduction modulo [2^w]
      ([u8], [u16], [u32]).  [unsigned long] is 32 bits wide on the boards
      the sketch targets.
    - The global variables of the sketch are the fields of [State].
    - What the sketch does to the outside world (serial port, LED pin,
      scheduler, BLE stack) is recorded, in program order, as a list of
      [Effect]s.  What the outside world answers ([millis()], the result of
      [writeValue] and of [BLE.advertise]) is an argument of the handler. *)

From Stdlib Require Import ZArith List String Bool Lia.
Import ListNotations.
Local Open Scope Z_scope.

(** ** Fixed-width unsigned integers *)

Definition u8 (z : Z) : Z := z mod 2 ^ 8.
Definition u16 (z : Z) : Z := z mod 2 ^ 16.
Definition u32 (z : Z) : Z := z mod 2 ^ 32.

(** ** The time structure *)

Record DateTime : Type := mkDateTime {
  year : Z;       (* uint16_t *)
  month : Z;      (* uint8_t *)
  day : Z;        (* uint8_t *)
  hour : Z;       (* uint8_t *)
  minute : Z;     (* uint8_t *)
  second : Z;     (* uint8_t *)
  dayOfWeek : Z   (* uint8_t, 1 = Monday, 7 = Sunday *)
}.

Definition set_year (v : Z) (d : DateTime) : DateTime :=
  mkDateTime v (month d) (day d) (hour d) (minute d) (second d) (dayOfWeek d).
Definition set_month (v : Z) (d : DateTime) : DateTime :=
  mkDateTime (year d) v (day d) (hour d) (minute d) (second d) (dayOfWeek d).
Definition set_day (v : Z) (d : DateTime) : DateTime :=
  mkDateTime (year d) (month d) v (hour d) (minute d) (second d) (dayOfWeek d).
Definition set_hour (v : Z) (d : DateTime) : DateTime :=
  mkDateTime (year d) (month d) (day d) v (minute d) (second d) (dayOfWeek d).
Definition set_minute (v : Z) (d : DateTime) : DateTime :=
  mkDateTime (year d) (month d) (day d) (hour d) v (second d) (dayOfWeek d).
Definition set_second (v : Z) (d : DateTime) : DateTime :=
  mkDateTime (year d) (month d) (day d) (hour d) (minute d) v (dayOfWeek d).
Definition set_dayOfWeek (v : Z) (d : DateTime) : DateTime :=
  mkDateTime (year d) (month d) (day d) (hour d) (minute d) (second d) v.

(** The values a [DateTime] can hold in the sketch: the widths of its fields. *)
Definition fits_layout (d : DateTime) : Prop :=
  0 <= year d < 65536 /\ 0 <= month d < 256 /\ 0 <= day d < 256 /\
  0 <= hour d < 256 /\ 0 <= minute d < 256 /\ 0 <= second d < 256 /\
  0 <= dayOfWeek d < 256.

(** ** Days in a month *)

Definition isLeap (y : Z) : bool :=
  ((y mod 4 =? 0) && negb (y mod 100 =? 0)) || (y mod 400 =? 0).

Definition daysInMonth (y m : Z) : Z :=
  if (m =? 4) || (m =? 6) || (m =? 9) || (m =? 11) then 30
  else if m =? 2 then (if isLeap y then 29 else 28)
  else 31.

(** ** The calendar rollover engine *)

(** One pass through the body of the [while] loop of [updateInternalTime]. *)
Definition monthCarry (d : DateTime) : DateTime :=
  let d := set_day (u8 (day d - daysInMonth (year d) (month d))) d in
  let d := set_month (u8 (month d + 1)) d in
  if 12 <? month d
  then set_year (u16 (year d + 1)) (set_month 1 d)
  else d.

(** The [while (day > monthDays)] loop, unrolled at most [fuel] times.
    [monthDays] is recomputed from the updated year and month at the end of
    each pass, so the loop test reads it from the current value. *)
Fixpoint monthLoop (fuel : nat) (d : DateTime) : DateTime :=
  match fuel with
  | O => d
  | S fuel' =>
      if daysInMonth (year d) (month d) <? day d
      then monthLoop fuel' (monthCarry d)
      else d
  end.

(** Every pass takes at least 28 days off a day count below 256: ten
    passes always reach the exit test. *)
Definition monthLoopFuel : nat := 10.

(** The rollover cascade that follows [second += elapsedSeconds]. *)
Definition rollover (d : DateTime) : DateTime :=
  if 60 <=? second d then
    let d := set_minute (u8 (minute d + second d / 60)) d in
    let d := set_second (u8 (second d mod 60)) d in
    if 60 <=? minute d then
      let d := set_hour (u8 (hour d + minute d / 60)) d in
      let d := set_minute (u8 (minute d mod 60)) d in
      if 24 <=? hour d then
        let daysElapsed := u8 (hour d / 24) in
        let d := set_day (u8 (day d + daysElapsed)) d in
        let d := set_hour (u8 (hour d mod 24)) d in
        let d := set_dayOfWeek
                   (u8 (Z.rem (dayOfWeek d - 1 + daysElapsed) 7 + 1)) d in
        monthLoop monthLoopFuel d
      else d
    else d
  else d.

(** ** Global variables of the sketch *)

(** A [BLEDevice] is known to the sketch through its address only. *)
Record BLEDevice : Type := mkBLEDevice { address : string }.

Record State : Type := mkState {
  currentDateTime : DateTime;
  lastTimeUpdateMillis : Z;        (* unsigned long *)
  centralConnected : bool;
  connectedCentral : BLEDevice;
  ledState : bool;
  tLedBlinkEnabled : bool          (* whether task [tLedBlink] is enabled *)
}.

Definition set_currentDateTime (v : DateTime) (s : State) : State :=
  mkState v (lastTimeUpdateMillis s) (centralConnected s)
          (connectedCentral s) (ledState s) (tLedBlinkEnabled s).
Definition set_lastTimeUpdateMillis (v : Z) (s : State) : State :=
  mkState (currentDateTime s) v (centralConnected s)
          (connectedCentral s) (ledState s) (tLedBlinkEnabled s).
Definition set_centralConnected (v : bool) (s : State) : State :=
  mkState (currentDateTime s) (lastTimeUpdateMillis s) v
          (connectedCentral s) (ledState s) (tLedBlinkEnabled s).
Definition set_connectedCentral (v : BLEDevice) (s : State) : State :=
  mkState (currentDateTime s) (lastTimeUpdateMillis s) (centralConnected s)
          v (ledState s) (tLedBlinkEnabled s).
Definition set_ledState (v : bool) (s : State) : State :=
  mkState (currentDateTime s) (lastTimeUpdateMillis s) (centralConnected s)
          (connectedCentral s) v (tLedBlinkEnabled s).
Definition set_tLedBlinkEnabled (v : bool) (s : State) : State :=
  mkState (currentDateTime s) (lastTimeUpdateMillis s) (centralConnected s)
          (connectedCentral s) (ledState s) v.

(** The globals as the sketch initialises them: 2024-01-01 00:00:00, Monday. *)
Definition initialState : State :=
  mkState (mkDateTime 2024 1 1 0 0 0 1) 0 false (mkBLEDevice EmptyString) false true.

(** [updateInternalTime], with the value returned by [millis()] as argument.
    It touches [currentDateTime] and [lastTimeUpdateMillis] only. *)
Definition updateInternalTime (currentMillis : Z) (s : State) : State :=
  let diff := u32 (currentMillis - lastTimeUpdateMillis s) in
  if 1000 <=? diff then
    let elapsedSeconds := diff / 1000 in
    let s := set_lastTimeUpdateMillis
               (u32 (lastTimeUpdateMillis s + u32 (elapsedSeconds * 1000))) s in
    let d := currentDateTime s in
    let d := set_second (u8 (u32 (second d + elapsedSeconds))) d in
    set_currentDateTime (rollover d) s
  else s.

(** ** Effects and the handler monad *)

Inductive Characteristic : Type :=
  | currentTimeChar
  | localTimeInfoChar
  | refTimeInfoChar.

Inductive Effect : Type :=
  | SerialPrint (text : string)          (* Serial.print / println of text *)
  | SerialPrintNum (n : Z)               (* Serial.println of an int *)
  | SerialPrintHex (b : Z)               (* Serial.print(b, HEX) *)
  | SerialPrintTime (prefix : string) (d : DateTime)
                                         (* snprintf of a time, then println *)
  | DigitalWrite (level : bool)          (* digitalWrite(LED_PIN, level) *)
  | Delay (ms : Z)
  | TaskDisable                          (* tLedBlink.disable() *)
  | TaskEnable                           (* tLedBlink.enable() *)
  | WriteValue (c : Characteristic) (data : list Z)
  | StopAdvertise
  | Advertise.

(** A handler reads and writes the globals and appends to the trace. *)
Definition M (A : Type) : Type := State -> A * State * list Effect.

Definition ret {A : Type} (a : A) : M A := fun s => (a, s, []).

Definition bind {A B : Type} (m : M A) (k : A -> M B) : M B :=
  fun s =>
    let '(a, s1, t1) := m s in
    let '(b, s2, t2) := k a s1 in
    (b, s2, t1 ++ t2).

Definition get : M State := fun s => (s, s, []).
Definition modify (f : State -> State) : M unit := fun s => (tt, f s, []).
Definition emit (e : Effect) : M unit := fun s => (tt, s, [e]).

Notation "x <- m ;; k" := (bind m (fun x => k))
  (at level 61, m at next level, right associativity).
Notation "m ;; k" := (bind m (fun _ => k))
  (at level 61, right associativity).

Definition skip : M unit := ret tt.

(** [for] over the elements of a list, in order. *)
Fixpoint forEach {A : Type} (l : list A) (body : A -> M unit) : M unit :=
  match l with
  | [] => skip
  | x :: l' => body x ;; forEach l' body
  end.

Definition finalState {A : Type} (r : A * State * list Effect) : State :=
  snd (fst r).
Definition trace {A : Type} (r : A * State * list Effect) : list Effect :=
  snd r.

(** ** The Current Time codec *)

(** The array [timeData] that [writeCurrentTime] fills in.  The year is cut
    into two bytes with [&] and [>>]; the other fields are [uint8_t] values
    stored into [uint8_t] cells. *)
Definition timeData (d : DateTime) : list Z :=
  [ u8 (Z.land (year d) 255);
    u8 (Z.land (Z.shiftr (year d) 8) 255);
    month d; day d; hour d; minute d; second d; dayOfWeek d;
    0;      (* Fractions256 *)
    1 ].    (* Adjust Reason: manual time update *)

(** [data[i]] on the value buffer of a characteristic. *)
Definition byteAt (data : list Z) (i : nat) : Z := nth i data 0.

(** The locals [year] ... [dayOfWeek] that [currentTimeWrittenHandler]
    parses out of [data]; bytes 8 and 9 are not read. *)
Definition parseCurrentTime (data : list Z) : DateTime :=
  mkDateTime (u16 (Z.lor (byteAt data 0) (Z.shiftl (byteAt data 1) 8)))
             (byteAt data 2) (byteAt data 3) (byteAt data 4)
             (byteAt data 5) (byteAt data 6) (byteAt data 7).

(** The "basic validation" of the written handler. *)
Definition validTime (d : DateTime) : bool :=
  (1 <=? month d) && (month d <=? 12) && (1 <=? day d) && (day d <=? 31) &&
  (hour d <=? 23) && (minute d <=? 59) && (second d <=? 59) &&
  (1 <=? dayOfWeek d) && (dayOfWeek d <=? 7).

(** ** Writing the characteristics *)

(** [writeOk] is what [currentTimeChar.writeValue] returns. *)
Definition writeCurrentTime (writeOk : bool) : M unit :=
  s <- get ;;
  emit (WriteValue currentTimeChar (timeData (currentDateTime s))) ;;
  if negb writeOk
  then emit (SerialPrint "Error writing Current Time characteristic!")
  else skip.

Definition writeLocalTimeInfo : M unit :=
  let timeZone := 32 in
  let dstOffset := 0 in
  emit (WriteValue localTimeInfoChar [u8 timeZone; dstOffset]).

Definition writeRefTimeInfo : M unit :=
  emit (WriteValue refTimeInfoChar [4; 254; 0; 0]).

(** ** Task callbacks *)

Definition tLedBlink_disable : M unit :=
  emit TaskDisable ;; modify (set_tLedBlinkEnabled false).

Definition tLedBlink_enable : M unit :=
  emit TaskEnable ;; modify (set_tLedBlinkEnabled true).

Definition blinkLedCallback : M unit :=
  modify (fun s => set_ledState (negb (ledState s)) s) ;;
  s <- get ;;
  emit (DigitalWrite (ledState s)).

Definition updateInternalTimeCallback (currentMillis : Z) : M unit :=
  modify (updateInternalTime currentMillis).

Definition updateBleDataCallback (currentMillis : Z) (writeOk : bool)
  : M unit :=
  s <- get ;;
  if centralConnected s then
    modify (updateInternalTime currentMillis) ;;
    writeCurrentTime writeOk
  else skip.

(** ** BLE event handlers *)

(** The loop that prints the first [len] bytes of [data] in hexadecimal. *)
Definition printRawData (data : list Z) (len : nat) : M unit :=
  emit (SerialPrint "  Raw Data Received: [") ;;
  forEach (seq 0 len) (fun i =>
    emit (SerialPrint "0x") ;;
    (if byteAt data i <? 16 then emit (SerialPrint "0") else skip) ;;
    emit (SerialPrintHex (byteAt data i)) ;;
    (if Z.of_nat i <? Z.of_nat len - 1
     then emit (SerialPrint ", ") else skip)) ;;
  emit (SerialPrint "]").

(** The seven assignments [currentDateTime.year = year; ...]. *)
Definition assignDateTime (t : DateTime) (s : State) : State :=
  let d := currentDateTime s in
  let d := set_year (year t) d in
  let d := set_month (month t) d in
  let d := set_day (day t) d in
  let d := set_hour (hour t) d in
  let d := set_minute (minute t) d in
  let d := set_second (second t) d in
  let d := set_dayOfWeek (dayOfWeek t) d in
  set_currentDateTime d s.

(** Handler for a write of the Current Time characteristic.  [value] is
    the value buffer of the characteristic ([valueLength()] is its length)
    and [currentMillis] is what [millis()] returns. *)
Definition currentTimeWrittenHandler
    (currentMillis : Z) (central : BLEDevice) (value : list Z) : M unit :=
  emit (SerialPrint "Current Time characteristic written by: ") ;;
  emit (SerialPrint (address central)) ;;
  if (List.length value =? 10)%nat then
    printRawData value 10 ;;
    let t := parseCurrentTime value in
    if validTime t then
      modify (assignDateTime t) ;;
      modify (set_lastTimeUpdateMillis currentMillis) ;;
      emit (SerialPrint "Internal time updated by client:") ;;
      s <- get ;;
      emit (SerialPrintTime "  New Time: " (currentDateTime s))
    else
      emit (SerialPrint "Received invalid time data format.")
  else
    emit (SerialPrint "Received data with incorrect length: ") ;;
    emit (SerialPrintNum (Z.of_nat (List.length value))) ;;
    printRawData value (List.length value).

Definition blePeripheralConnectHandler (writeOk : bool) (central : BLEDevice)
  : M unit :=
  emit (SerialPrint "Connected event for: ") ;;
  emit (SerialPrint (address central)) ;;
  emit (DigitalWrite true) ;;
  modify (set_ledState true) ;;
  tLedBlink_disable ;;
  s <- get ;;
  if negb (centralConnected s) then
    modify (set_centralConnected true) ;;
    modify (set_connectedCentral central) ;;
    emit (SerialPrint "Connection established.") ;;
    emit (Delay 50) ;;
    writeCurrentTime writeOk ;;
    emit (Delay 10) ;;
    writeLocalTimeInfo ;;
    emit (Delay 10) ;;
    writeRefTimeInfo ;;
    emit (SerialPrint "Initial characteristics sent.")
  else
    emit (SerialPrint "Already connected, ignoring duplicate connect event.").

(** [advertiseOk] is what [BLE.advertise()] returns. *)
Definition blePeripheralDisconnectHandler
    (advertiseOk : bool) (central : BLEDevice) : M unit :=
  emit (SerialPrint "Disconnected event for: ") ;;
  emit (SerialPrint (address central)) ;;
  emit (DigitalWrite false) ;;
  modify (set_ledState false) ;;
  s <- get ;;
  if centralConnected s then
    modify (set_centralConnected false) ;;
    tLedBlink_enable ;;
    emit (SerialPrint "Connection terminated.") ;;
    emit StopAdvertise ;;
    emit (SerialPrint "Stopped advertising.") ;;
    emit (Delay 100) ;;
    emit Advertise ;;
    if advertiseOk
    then emit (SerialPrint "Restarted advertising.")
    else emit (SerialPrint "Failed to restart advertising!")
  else
    emit (SerialPrint "Ignoring disconnect event, was not connected.").

(** ** Reading a trace *)

Definition isWriteOf (c : Characteristic) (e : Effect) : bool :=
  match e, c with
  | WriteValue currentTimeChar _, currentTimeChar => true
  | WriteValue localTimeInfoChar _, localTimeInfoChar => true
  | WriteValue refTimeInfoChar _, refTimeInfoChar => true
  | _, _ => false
  end.

(** How many times characteristic [c] is written in a trace. *)
Definition writesOf (c : Characteristic) (t : list Effect) : nat :=
  List.length (filter (isWriteOf c) t).

Definition isSerialPrint (text : string) (e : Effect) : bool :=
  match e with
  | SerialPrint text' => String.eqb text text'
  | _ => false
  end.

(** Whether the text was printed on the serial port. *)
Definition printed (text : string) (t : list Effect) : bool :=
  existsb (isSerialPrint text) t.

(** ** Predicates used in the statements *)

(** The bounds that hold on the clock between two calls. *)
Definition atRest (d : DateTime) : Prop :=
  1 <= month d <= 12 /\
  1 <= day d <= daysInMonth (year d) (month d) /\
  hour d < 24 /\ minute d < 60 /\ second d < 60 /\
  1 <= dayOfWeek d <= 7.

(** The globals [updateInternalTime] works on hold values of their types. *)
Definition clockFits (s : State) : Prop :=
  fits_layout (currentDateTime s) /\ 0 <= lastTimeUpdateMillis s < 2 ^ 32.

(** The validated ranges of the written handler, as a proposition. *)
Definition inRange (d : DateTime) : Prop :=
  1 <= month d <= 12 /\ 1 <= day d <= 31 /\ hour d <= 23 /\
  minute d <= 59 /\ second d <= 59 /\ 1 <= dayOfWeek d <= 7.

(** The three characteristic writes of the snapshot pushed on connection. *)
Definition snapshotWrites (t : list Effect) : nat * nat * nat :=
  (writesOf currentTimeChar t, writesOf localTimeInfoChar t,
   writesOf refTimeInfoChar t).

(** ** Repeated calls *)

(** The counter starts at [now]; it is moved forward by each delta in turn
    and [updateInternalTime] is called after each move. *)
Fixpoint advanceRepeatedly (now : Z) (deltas : list Z) (s : State) : State :=
  match deltas with
  | [] => s
  | d :: deltas' =>
      advanceRepeatedly (u32 (now + d)) deltas'
                        (updateInternalTime (u32 (now + d)) s)
  end.

(** The sum of the deltas. *)
Definition total (deltas : list Z) : Z := fold_right Z.add 0 deltas.

(** ** The cascade as arithmetic on the second of the day

    A reference reading of the cascade, used to compare successive calls;
    [rollover] above is the code. *)

Definition secondsOfDay (d : DateTime) : Z :=
  hour d * 3600 + minute d * 60 + second d.

Definition withTimeOfDay (t : Z) (d : DateTime) : DateTime :=
  set_second (t mod 60) (set_minute (t / 60 mod 60) (set_hour (t / 3600) d)).

Definition nextDay (d : DateTime) : DateTime :=
  monthLoop monthLoopFuel
    (set_dayOfWeek (dayOfWeek d mod 7 + 1) (set_day (day d + 1) d)).

(** What the cascade computes, read off the clock face: the second of the
    day is split again into hour, minute and second, after one day has
    been carried into the date if midnight was passed. *)
Definition rolloverSpec (d : DateTime) : DateTime :=
  let t := secondsOfDay d in
  if t <? 86400 then withTimeOfDay t d
  else withTimeOfDay (t - 86400) (nextDay d).

(** ** The remaining task callback *)

Definition printSystemTimeCallback (currentMillis : Z) : M unit :=
  modify (updateInternalTime currentMillis) ;;
  s <- get ;;
  emit (SerialPrintTime "System Time: " (currentDateTime s)).

(** ** The callbacks as the sketch registers them

    [setup] registers the three BLE handlers and the task definitions name
    the four task callbacks.  An [Event] is one invocation of one of them,
    together with what the outside world answers during that invocation. *)

Inductive Event : Type :=
  | BLEConnected (writeOk : bool) (central : BLEDevice)
  | BLEDisconnected (advertiseOk : bool) (central : BLEDevice)
  | BLEWritten (currentMillis : Z) (central : BLEDevice) (value : list Z)
  | TaskLedBlink
  | TaskUpdateTime (currentMillis : Z)
  | TaskUpdateBleData (currentMillis : Z) (writeOk : bool)
  | TaskPrintTime (currentMillis : Z).

Definition handle (e : Event) : M unit :=
  match e with
  | BLEConnected writeOk central => blePeripheralConnectHandler writeOk central
  | BLEDisconnected advertiseOk central =>
      blePeripheralDisconnectHandler advertiseOk central
  | BLEWritten currentMillis central value =>
      currentTimeWrittenHandler currentMillis central value
  | TaskLedBlink => blinkLedCallback
  | TaskUpdateTime currentMillis => updateInternalTimeCallback currentMillis
  | TaskUpdateBleData currentMillis writeOk =>
      updateBleDataCallback currentMillis writeOk
  | TaskPrintTime currentMillis => printSystemTimeCallback currentMillis
  end.

(** The callbacks run one after the other: nothing preempts a callback. *)
Definition run (es : list Event) : M unit := forEach es handle.

(** The values the outside world can hand to a callback: [millis()] is an
    [unsigned long] and the value of a characteristic is made of bytes. *)
Definition eventFits (e : Event) : Prop :=
  match e with
  | BLEWritten currentMillis _ value =>
      0 <= currentMillis < 2 ^ 32 /\ Forall (fun b => 0 <= b < 256) value
  | TaskUpdateTime currentMillis
  | TaskUpdateBleData currentMillis _
  | TaskPrintTime currentMillis => 0 <= currentMillis < 2 ^ 32
  | _ => True
  end.

(** The scheduler runs the callback of a task only while the task is
    enabled; [tLedBlink] is the one task the sketch disables. *)
Definition enabledIn (s : State) (e : Event) : Prop :=
  match e with
  | TaskLedBlink => tLedBlinkEnabled s = true
  | _ => True
  end.

(** A sequence of events the scheduler can deliver from state [s]. *)
Fixpoint deliverable (s : State) (es : list Event) : Prop :=
  match es with
  | [] => True
  | e :: es' => enabledIn s e /\ deliverable (finalState (handle e s)) es'
  end.

(** The level last written to the LED pin in a trace, if any. *)
Fixpoint lastDigitalWrite (t : list Effect) : option bool :=
  match t with
  | [] => None
  | e :: t' =>
      match lastDigitalWrite t' with
      | Some level => Some level
      | None => match e with DigitalWrite level => Some level | _ => None end
      end
  end.

(** The bytes printed in hexadecimal in a trace, in order. *)
Fixpoint hexPrinted (t : list Effect) : list Z :=
  match t with
  | [] => []
  | SerialPrintHex b :: t' => b :: hexPrinted t'
  | _ :: t' => hexPrinted t'
  end.

(** The values written to characteristic [c] in a trace, in order. *)
Fixpoint valuesWritten (c : Characteristic) (t : list Effect)
  : list (list Z) :=
  match t with
  | [] => []
  | e :: t' =>
      match e with
      | WriteValue c' data =>
          if isWriteOf c e then data :: valuesWritten c t'
          else valuesWritten c t'
      | _ => valuesWritten c t'
      end
  end.

(** The advertising commands of a trace, in order. *)
Definition advertising (t : list Effect) : list Effect :=
  filter (fun e => match e with
                   | StopAdvertise | Advertise => true
                   | _ => false
                   end) t.

(** ** The polling revision of the sketch

    The file also holds a revision of the sketch that polls the BLE stack
    from a task instead of registering handlers.  It has its own globals,
    its own [updateInternalTime] with the month table written inline, and
    its own byte order for the Current Time value. *)

Module Legacy.

Record State : Type := mkState {
  currentDateTime : DateTime;
  bleInitialized : bool;
  lastTimeUpdate : Z;              (* unsigned long *)
  centralConnected : bool;
  connectedCentral : BLEDevice;
  ledState : bool
}.

Definition set_currentDateTime (v : DateTime) (s : State) : State :=
  mkState v (bleInitialized s) (lastTimeUpdate s) (centralConnected s)
          (connectedCentral s) (ledState s).
Definition set_bleInitialized (v : bool) (s : State) : State :=
  mkState (currentDateTime s) v (lastTimeUpdate s) (centralConnected s)
          (connectedCentral s) (ledState s).
Definition set_lastTimeUpdate (v : Z) (s : State) : State :=
  mkState (currentDateTime s) (bleInitialized s) v (centralConnected s)
          (connectedCentral s) (ledState s).
Definition set_centralConnected (v : bool) (s : State) : State :=
  mkState (currentDateTime s) (bleInitialized s) (lastTimeUpdate s) v
          (connectedCentral s) (ledState s).
Definition set_connectedCentral (v : BLEDevice) (s : State) : State :=
  mkState (currentDateTime s) (bleInitialized s) (lastTimeUpdate s)
          (centralConnected s) v (ledState s).
Definition set_ledState (v : bool) (s : State) : State :=
  mkState (currentDateTime s) (bleInitialized s) (lastTimeUpdate s)
          (centralConnected s) (connectedCentral s) v.

(** The globals as initialised: 2023-10-10 12:00:00, Tuesday. *)
Definition initialState : State :=
  mkState (mkDateTime 2023 10 10 12 0 0 2) false 0 false
          (mkBLEDevice EmptyString) false.

(** What the revision does to the outside world: the effects of the
    handler revision, and the calls that set up the BLE stack. *)
Inductive Command : Type :=
  | Do (e : Effect)
  | BleBegin
  | BleSetLocalName (name : string)
  | BleSetDeviceName (name : string)
  | BleSetAdvertisedService
  | AddCharacteristic (c : Characteristic)
  | BleAddService.

(** The local [daysInMonth] of [updateInternalTime]. *)
Definition monthDays (d : DateTime) : Z :=
  let daysInMonth := 31 in
  if (month d =? 4) || (month d =? 6) || (month d =? 9) || (month d =? 11)
  then 30
  else if month d =? 2 then
    u8 (if ((year d mod 4 =? 0) && negb (year d mod 100 =? 0))
           || (year d mod 400 =? 0)
        then 29 else 28)
  else daysInMonth.

(** The carry cascade of the polling revision.  The day of week is computed
    from [hour / 24] after [hour %= 24], and a day count past the end of the
    month is reset to 1 by a single [if]. *)
Definition rollover (d : DateTime) : DateTime :=
  if 60 <=? second d then
    let d := set_minute (u8 (minute d + second d / 60)) d in
    let d := set_second (u8 (second d mod 60)) d in
    if 60 <=? minute d then
      let d := set_hour (u8 (hour d + minute d / 60)) d in
      let d := set_minute (u8 (minute d mod 60)) d in
      if 24 <=? hour d then
        let d := set_day (u8 (day d + hour d / 24)) d in
        let d := set_hour (u8 (hour d mod 24)) d in
        let d := set_dayOfWeek
                   (u8 (Z.rem (dayOfWeek d - 1 + hour d / 24) 7 + 1)) d in
        if monthDays d <? day d then
          let d := set_day 1 d in
          let d := set_month (u8 (month d + 1)) d in
          if 12 <? month d
          then set_year (u16 (year d + 1)) (set_month 1 d)
          else d
        else d
      else d
    else d
  else d.

Definition updateInternalTime (currentMillis : Z) (s : State) : State :=
  let elapsed := u32 (currentMillis - lastTimeUpdate s) in
  if 1000 <=? elapsed then
    let secondsElapsed := u32 (elapsed / 1000) in
    let s := set_lastTimeUpdate (u32 (currentMillis - elapsed mod 1000)) s in
    let d := currentDateTime s in
    let d := set_second (u8 (u32 (second d + secondsElapsed))) d in
    set_currentDateTime (rollover d) s
  else s.

(** The array [timeData] that [updateCurrentTime] fills in: the day of week
    comes before the hour. *)
Definition timeData (d : DateTime) : list Z :=
  [ u8 (Z.land (year d) 255);
    u8 (Z.land (Z.shiftr (year d) 8) 255);
    month d; day d; dayOfWeek d; hour d; minute d; second d;
    0; 0 ].

Definition updateCurrentTime (currentMillis : Z) (s : State)
  : State * list Command :=
  let s := updateInternalTime currentMillis s in
  (s, [Do (WriteValue currentTimeChar (timeData (currentDateTime s)))]).

Definition updateLocalTimeInfo : list Command :=
  let timeZone := 32 in
  let dstOffset := 0 in
  [Do (WriteValue localTimeInfoChar [u8 timeZone; dstOffset])].

Definition updateRefTimeInfo : list Command :=
  [Do (WriteValue refTimeInfoChar [4; 4; 0; 0])].

Definition blinkLedCallback (s : State) : State * list Command :=
  let s := set_ledState (negb (ledState s)) s in
  (s, [Do (DigitalWrite (ledState s));
       Do (SerialPrint (if ledState s then "LED ON" else "LED OFF"))]).

Definition updateTimeCallback (currentMillis : Z) (s : State)
  : State * list Command :=
  let s := updateInternalTime currentMillis s in
  let d := currentDateTime s in
  (s, [Do (SerialPrint "Current Time: "); Do (SerialPrintNum (year d));
       Do (SerialPrint "-"); Do (SerialPrintNum (month d));
       Do (SerialPrint "-"); Do (SerialPrintNum (day d));
       Do (SerialPrint " "); Do (SerialPrintNum (hour d));
       Do (SerialPrint ":"); Do (SerialPrintNum (minute d));
       Do (SerialPrint ":"); Do (SerialPrintNum (second d))]).

(** What the outside world answers during one run of [bleServerCallback]:
    the result of [BLE.begin()], the address of the device, the values of
    [millis()] read by the initial and by the later [updateCurrentTime],
    whether the remembered central is still connected, and the central that
    [BLE.central()] returns, if any. *)
Record Poll : Type := mkPoll {
  beginOk : bool;
  localAddress : string;
  initMillis : Z;
  pollMillis : Z;
  stillConnected : bool;
  central : option BLEDevice
}.

(** The block guarded by [!bleInitialized]; the boolean tells whether the
    callback goes on (it returns early when [BLE.begin()] fails). *)
Definition initialise (p : Poll) (s : State)
  : State * list Command * bool :=
  if negb (bleInitialized s) then
    if beginOk p then
      let s := set_bleInitialized true s in
      let '(s, t) := updateCurrentTime (initMillis p) s in
      (s,
       [BleBegin;
        BleSetLocalName "Arduino CTS Server";
        BleSetDeviceName "Arduino CTS Server";
        BleSetAdvertisedService;
        AddCharacteristic currentTimeChar;
        AddCharacteristic localTimeInfoChar;
        AddCharacteristic refTimeInfoChar;
        BleAddService]
       ++ t ++ updateLocalTimeInfo ++ updateRefTimeInfo
       ++ [Do Advertise;
           Do (SerialPrint "BLE CTS Server is advertising");
           Do (SerialPrint "Local MAC address: ");
           Do (SerialPrint (localAddress p))],
       true)
    else (s, [BleBegin; Do (SerialPrint "Starting BLE failed!")], false)
  else (s, [], true).

(** The part of the callback that looks after the connection. *)
Definition serveConnection (p : Poll) (s : State) : State * list Command :=
  if centralConnected s then
    if negb (stillConnected p) then
      (set_centralConnected false s,
       [Do (SerialPrint "Disconnected from central: ");
        Do (SerialPrint (address (connectedCentral s)));
        Do Advertise])
    else updateCurrentTime (pollMillis p) s
  else
    match central p with
    | Some c =>
        let s := set_connectedCentral c s in
        let s := set_centralConnected true s in
        let '(s, t) := updateCurrentTime (pollMillis p) s in
        (s,
         [Do (SerialPrint "Connected to central: ");
          Do (SerialPrint (address c));
          Do (SerialPrint "Sending initial time information...")]
         ++ t ++ updateLocalTimeInfo ++ updateRefTimeInfo)
    | None => (s, [])
    end.

Definition bleServerCallback (p : Poll) (s : State) : State * list Command :=
  let '(s, t, goOn) := initialise p s in
  if goOn then
    let '(s, t') := serveConnection p s in (s, t ++ t')
  else (s, t).

Definition updateServiceDataCallback (currentMillis : Z) (s : State)
  : State * list Command :=
  if centralConnected s then updateCurrentTime currentMillis s else (s, []).

(** The task callbacks, as the scheduler runs them one after the other. *)
Inductive Event : Type :=
  | TaskLedBlink
  | TaskUpdateTime (currentMillis : Z)
  | TaskBleServer (p : Poll)
  | TaskUpdateServiceData (currentMillis : Z).

Definition handle (e : Event) (s : State) : State * list Command :=
  match e with
  | TaskLedBlink => blinkLedCallback s
  | TaskUpdateTime currentMillis => updateTimeCallback currentMillis s
  | TaskBleServer p => bleServerCallback p s
  | TaskUpdateServiceData currentMillis =>
      updateServiceDataCallback currentMillis s
  end.

Fixpoint run (es : list Event) (s : State) : State * list Command :=
  match es with
  | [] => (s, [])
  | e :: es' =>
      let '(s1, t1) := handle e s in
      let '(s2, t2) := run es' s1 in
      (s2, t1 ++ t2)
  end.

(** The effects of a trace, without the calls that set up the stack. *)
Fixpoint effects (t : list Command) : list Effect :=
  match t with
  | [] => []
  | Do e :: t' => e :: effects t'
  | _ :: t' => effects t'
  end.

(** How many times [BLE.begin()] is called in a trace. *)
Fixpoint begins (t : list Command) : nat :=
  match t with
  | [] => O
  | BleBegin :: t' => S (begins t')
  | _ :: t' => begins t'
  end.

End Legacy.

(** * Properties *)

(** ** Arithmetic of the fixed-width stores *)

Ltac euclid := Z.to_euclidean_division_equations; lia.

(** Reads the fields of a [DateTime] built by a chain of field updates. *)
Ltac fields :=
  unfold set_year, set_month, set_day, set_hour, set_minute, set_second,
    set_dayOfWeek;
  cbn [year month day hour minute second dayOfWeek].

Lemma u8_range (z : Z) : 0 <= u8 z < 256.
Proof. unfold u8. change (2 ^ 8) with 256. euclid. Qed.

Lemma u16_range (z : Z) : 0 <= u16 z < 65536.
Proof. unfold u16. change (2 ^ 16) with 65536. euclid. Qed.

Lemma u32_range (z : Z) : 0 <= u32 z < 2 ^ 32.
Proof. unfold u32. apply Z.mod_pos_bound. reflexivity. Qed.

Lemma u8_small (z : Z) : 0 <= z < 256 -> u8 z = z.
Proof. intros H. unfold u8. apply Z.mod_small. exact H. Qed.

Lemma u16_small (z : Z) : 0 <= z < 65536 -> u16 z = z.
Proof. intros H. unfold u16. apply Z.mod_small. exact H. Qed.

Lemma u32_small (z : Z) : 0 <= z < 2 ^ 32 -> u32 z = z.
Proof. intros H. unfold u32. apply Z.mod_small. exact H. Qed.

Lemma u8_u32 (z : Z) : u8 (u32 z) = u8 z.
Proof.
  unfold u8, u32.
  change (2 ^ 32) with (2 ^ 8 * 2 ^ 24).
  rewrite Z.rem_mul_r by (cbv; discriminate || reflexivity).
  change (2 ^ 8) with 256. change (2 ^ 24) with 16777216.
  euclid.
Qed.

(** The counter moved forward by [k] from the reference reads as [k]. *)
Lemma u32_forward (l k : Z) :
  0 <= k < 2 ^ 32 -> u32 (u32 (l + k) - l) = k.
Proof.
  intros Hk. unfold u32.
  rewrite Zminus_mod_idemp_l.
  replace (l + k - l) with k by ring.
  apply Z.mod_small. exact Hk.
Qed.

(** ** Days in a month *)

Lemma daysInMonth_bounds (y m : Z) : 28 <= daysInMonth y m <= 31.
Proof.
  unfold daysInMonth.
  destruct ((m =? 4) || (m =? 6) || (m =? 9) || (m =? 11)); [lia|].
  destruct (m =? 2); [destruct (isLeap y)|]; lia.
Qed.

(** ** The month loop *)

Lemma monthLoop_exit (n : nat) (d : DateTime) :
  day d <= daysInMonth (year d) (month d) -> monthLoop n d = d.
Proof.
  intros H. destruct n as [|n]; [reflexivity|]. simpl.
  destruct (Z.ltb_spec (daysInMonth (year d) (month d)) (day d)); [lia|].
  reflexivity.
Qed.

(** Each pass of the loop takes at least 28 days off the day count. *)
Lemma monthCarry_day (d : DateTime) :
  0 <= day d < 256 ->
  daysInMonth (year d) (month d) < day d ->
  0 <= day (monthCarry d) <= day d - 28.
Proof.
  intros Hd Hlt. pose proof (daysInMonth_bounds (year d) (month d)) as B.
  assert (E : day (monthCarry d)
              = u8 (day d - daysInMonth (year d) (month d))).
  { unfold monthCarry. cbn.
    destruct (12 <? u8 (month d + 1)); reflexivity. }
  rewrite E, u8_small; lia.
Qed.

(** The loop is left through its exit test before the fuel runs out:
    the day count of the result is within the month it names. *)
Lemma monthLoop_terminates (n : nat) : forall d : DateTime,
  0 <= day d < 256 ->
  day d <= 28 * Z.of_nat n ->
  day (monthLoop n d)
    <= daysInMonth (year (monthLoop n d)) (month (monthLoop n d)).
Proof.
  induction n as [|n IH]; intros d Hd Hn.
  - simpl. pose proof (daysInMonth_bounds (year d) (month d)). lia.
  - simpl.
    destruct (Z.ltb_spec (daysInMonth (year d) (month d)) (day d)) as [L|L];
      [|exact L].
    pose proof (monthCarry_day d Hd L) as C.
    apply IH; lia.
Qed.

(** Fuel beyond what the day count needs is never used. *)
Lemma monthLoop_more_fuel (n m : nat) : forall d : DateTime,
  0 <= day d < 256 ->
  day d <= 28 * Z.of_nat n ->
  monthLoop (n + m) d = monthLoop n d.
Proof.
  induction n as [|n IH]; intros d Hd Hn.
  - pose proof (daysInMonth_bounds (year d) (month d)).
    cbn [Nat.add]. rewrite !monthLoop_exit by lia. reflexivity.
  - cbn [Nat.add monthLoop].
    destruct (Z.ltb_spec (daysInMonth (year d) (month d)) (day d)) as [L|L];
      [|reflexivity].
    pose proof (monthCarry_day d Hd L) as C.
    apply IH; lia.
Qed.

Lemma monthLoop_fuel_enough (d : DateTime) :
  0 <= day d < 256 ->
  day (monthLoop monthLoopFuel d)
    <= daysInMonth (year (monthLoop monthLoopFuel d))
                   (month (monthLoop monthLoopFuel d)).
Proof.
  intros Hd. apply monthLoop_terminates; [exact Hd|].
  unfold monthLoopFuel. lia.
Qed.

(** ** The rollover cascade *)

(** The cascade on a clock given field by field. *)
Lemma rollover_mk (y m dd h mi sc w : Z) :
  rollover (mkDateTime y m dd h mi sc w)
  = if 60 <=? sc then
      if 60 <=? u8 (mi + sc / 60) then
        if 24 <=? u8 (h + u8 (mi + sc / 60) / 60) then
          monthLoop monthLoopFuel
            (mkDateTime y m
               (u8 (dd + u8 (u8 (h + u8 (mi + sc / 60) / 60) / 24)))
               (u8 (u8 (h + u8 (mi + sc / 60) / 60) mod 24))
               (u8 (u8 (mi + sc / 60) mod 60))
               (u8 (sc mod 60))
               (u8 (Z.rem (w - 1 + u8 (u8 (h + u8 (mi + sc / 60) / 60) / 24))
                          7 + 1)))
        else
          mkDateTime y m dd (u8 (h + u8 (mi + sc / 60) / 60))
                     (u8 (u8 (mi + sc / 60) mod 60)) (u8 (sc mod 60)) w
      else mkDateTime y m dd h (u8 (mi + sc / 60)) (u8 (sc mod 60)) w
    else mkDateTime y m dd h mi sc w.
Proof. reflexivity. Qed.

(** Fields the month loop never writes. *)
Lemma monthCarry_time (d : DateTime) :
  hour (monthCarry d) = hour d /\ minute (monthCarry d) = minute d /\
  second (monthCarry d) = second d /\
  dayOfWeek (monthCarry d) = dayOfWeek d.
Proof.
  unfold monthCarry. cbn.
  destruct (12 <? u8 (month d + 1)); cbn; auto.
Qed.

(** A day count one past the end of the month is carried into the first
    day of the next month, and of the next year after December. *)
Lemma monthLoop_one_day_over (n : nat) (d : DateTime) :
  1 <= month d <= 12 ->
  1 <= day d <= daysInMonth (year d) (month d) + 1 ->
  let d' := monthLoop (S n) d in
  1 <= month d' <= 12 /\
  1 <= day d' <= daysInMonth (year d') (month d') /\
  hour d' = hour d /\ minute d' = minute d /\ second d' = second d /\
  dayOfWeek d' = dayOfWeek d.
Proof.
  intros Hm Hd. cbv zeta. simpl monthLoop.
  destruct (Z.ltb_spec (daysInMonth (year d) (month d)) (day d)) as [L|L].
  - assert (Hday : day d = daysInMonth (year d) (month d) + 1) by lia.
    assert (Em : month (monthCarry d) = if 12 <? month d + 1 then 1
                                        else month d + 1).
    { unfold monthCarry. cbn. rewrite (u8_small (month d + 1)) by lia.
      destruct (12 <? month d + 1); reflexivity. }
    assert (Ed : day (monthCarry d) = 1).
    { unfold monthCarry. cbn. rewrite Hday.
      replace (daysInMonth (year d) (month d) + 1
               - daysInMonth (year d) (month d)) with 1 by ring.
      destruct (12 <? u8 (month d + 1)); reflexivity. }
    pose proof (daysInMonth_bounds (year (monthCarry d))
                                   (month (monthCarry d))) as B.
    rewrite monthLoop_exit by lia.
    pose proof (monthCarry_time d) as (Hh & Hmi & Hs & Hw).
    rewrite Em, Ed at 1. rewrite Ed.
    repeat split; try assumption; try lia;
      destruct (Z.ltb_spec 12 (month d + 1)); lia.
  - repeat split; try reflexivity; lia.
Qed.

(** The cascade restores the bounds once the seconds fit in a byte. *)
Lemma rollover_atRest (d : DateTime) :
  0 <= second d < 256 ->
  1 <= month d <= 12 ->
  1 <= day d <= daysInMonth (year d) (month d) ->
  0 <= hour d < 24 -> 0 <= minute d < 60 -> 1 <= dayOfWeek d <= 7 ->
  atRest (rollover d).
Proof.
  destruct d as [y m dd h mi s w]. cbn [second month day hour minute
    dayOfWeek year]. intros Hs Hm Hd Hh Hmi Hw.
  rewrite rollover_mk.
  destruct (Z.leb_spec 60 s) as [S60|S60];
    [|unfold atRest; cbn; repeat split; lia].
  rewrite (u8_small (mi + s / 60)) by euclid.
  rewrite (u8_small (s mod 60)) by euclid.
  destruct (Z.leb_spec 60 (mi + s / 60)) as [M60|M60];
    [|unfold atRest; cbn; repeat split; euclid].
  assert (Hq : (mi + s / 60) / 60 = 1) by euclid.
  rewrite Hq.
  rewrite (u8_small (h + 1)) by lia.
  rewrite (u8_small ((mi + s / 60) mod 60)) by euclid.
  destruct (Z.leb_spec 24 (h + 1)) as [H24|H24];
    [|unfold atRest; cbn; repeat split; euclid].
  assert (Hh23 : h = 23) by lia. subst h.
  change ((23 + 1) / 24) with 1. change ((23 + 1) mod 24) with 0.
  change (u8 1) with 1. change (u8 0) with 0.
  pose proof (daysInMonth_bounds y m) as B.
  rewrite (u8_small (dd + 1)) by lia.
  replace (w - 1 + 1) with w by ring.
  rewrite Z.rem_mod_nonneg by lia.
  rewrite (u8_small (w mod 7 + 1)) by euclid.
  unfold monthLoopFuel.
  match goal with
  | |- atRest (monthLoop (S ?n) ?x) =>
      pose proof (monthLoop_one_day_over n x) as P
  end.
  cbv zeta in P. cbn [year month day] in P.
  destruct P as (P1 & P2 & P3 & P4 & P5 & P6); [lia | lia |].
  cbn [hour minute second dayOfWeek] in P3, P4, P5, P6.
  unfold atRest. rewrite P3, P4, P5, P6.
  repeat split; try lia; euclid.
Qed.

(** One call keeps a clock at rest at rest. *)
Lemma updateInternalTime_atRest (currentMillis : Z) (s : State) :
  fits_layout (currentDateTime s) ->
  atRest (currentDateTime s) ->
  atRest (currentDateTime (updateInternalTime currentMillis s)).
Proof.
  intros F R. pose proof R as (Hm & Hd & Hh & Hmi & Hs & Hw).
  destruct F as (_ & _ & _ & Fh & Fmi & Fs & _).
  unfold updateInternalTime. cbv zeta.
  destruct (1000 <=? u32 (currentMillis - lastTimeUpdateMillis s));
    [|exact R].
  cbn [currentDateTime set_currentDateTime set_lastTimeUpdateMillis].
  apply rollover_atRest; cbn; try lia.
  apply u8_range.
Qed.

(** ** The field widths are preserved *)

Lemma monthCarry_fits (d : DateTime) :
  fits_layout d -> fits_layout (monthCarry d).
Proof.
  intros (Hy & Hm & Hd & Hh & Hmi & Hs & Hw).
  pose proof (u8_range (day d - daysInMonth (year d) (month d))).
  pose proof (u8_range (month d + 1)).
  pose proof (u16_range (year d + 1)).
  unfold monthCarry. cbv zeta. fields.
  destruct (12 <? u8 (month d + 1)); unfold fits_layout; fields;
    repeat split; lia.
Qed.

Lemma monthLoop_fits (n : nat) : forall d : DateTime,
  fits_layout d -> fits_layout (monthLoop n d).
Proof.
  induction n as [|n IH]; intros d F; [exact F|].
  cbn [monthLoop].
  destruct (daysInMonth (year d) (month d) <? day d); [|exact F].
  apply IH, monthCarry_fits, F.
Qed.

Lemma set_time_fits (v : Z) (d : DateTime) :
  0 <= v < 256 -> fits_layout d ->
  fits_layout (set_second v d) /\ fits_layout (set_minute v d) /\
  fits_layout (set_hour v d) /\ fits_layout (set_day v d) /\
  fits_layout (set_dayOfWeek v d).
Proof.
  intros Hv (Hy & Hm & Hd & Hh & Hmi & Hs & Hw).
  unfold fits_layout. fields. repeat split; lia.
Qed.

Ltac fits_step :=
  first
    [ apply monthLoop_fits
    | apply (fun v d H F => proj1 (set_time_fits v d H F));
      [apply u8_range|]
    | apply (fun v d H F => proj1 (proj2 (set_time_fits v d H F)));
      [apply u8_range|]
    | apply (fun v d H F => proj1 (proj2 (proj2 (set_time_fits v d H F))));
      [apply u8_range|]
    | apply (fun v d H F =>
               proj1 (proj2 (proj2 (proj2 (set_time_fits v d H F)))));
      [apply u8_range|]
    | apply (fun v d H F =>
               proj2 (proj2 (proj2 (proj2 (set_time_fits v d H F)))));
      [apply u8_range|] ].

Lemma rollover_fits (d : DateTime) :
  fits_layout d -> fits_layout (rollover d).
Proof.
  intros F. unfold rollover. cbv zeta.
  repeat match goal with
         | |- fits_layout (if ?b then _ else _) => destruct b
         end;
    repeat fits_step; exact F.
Qed.

Lemma updateInternalTime_fits (currentMillis : Z) (s : State) :
  clockFits s -> clockFits (updateInternalTime currentMillis s).
Proof.
  intros (F & L). unfold updateInternalTime. cbv zeta.
  destruct (1000 <=? u32 (currentMillis - lastTimeUpdateMillis s));
    [|split; assumption].
  split.
  - cbn [currentDateTime set_currentDateTime set_lastTimeUpdateMillis].
    apply rollover_fits. fits_step. exact F.
  - cbn [lastTimeUpdateMillis set_currentDateTime set_lastTimeUpdateMillis].
    apply u32_range.
Qed.

(** ** One call of [updateInternalTime] *)

(** The call as a function of the time elapsed since the reference: with the
    counter [k >= 1000] milliseconds ahead, [k / 1000] seconds are added and
    the reference moves by the same number of whole seconds. *)
Lemma updateInternalTime_forward (k : Z) (s : State) :
  1000 <= k < 2 ^ 32 ->
  updateInternalTime (u32 (lastTimeUpdateMillis s + k)) s
  = mkState
      (rollover (set_second (u8 (second (currentDateTime s) + k / 1000))
                            (currentDateTime s)))
      (u32 (lastTimeUpdateMillis s + k / 1000 * 1000))
      (centralConnected s) (connectedCentral s) (ledState s)
      (tLedBlinkEnabled s).
Proof.
  intros Hk. unfold updateInternalTime. cbv zeta.
  rewrite u32_forward by lia.
  destruct (Z.leb_spec 1000 k) as [_|]; [|lia].
  unfold set_currentDateTime, set_lastTimeUpdateMillis.
  cbn [currentDateTime lastTimeUpdateMillis centralConnected
       connectedCentral ledState tLedBlinkEnabled].
  rewrite u8_u32.
  rewrite (u32_small (k / 1000 * 1000))
    by (change (2 ^ 32) with 4294967296 in *; euclid).
  reflexivity.
Qed.

(** With less than a second elapsed the call changes nothing. *)
Lemma updateInternalTime_idle (k : Z) (s : State) :
  0 <= k < 1000 ->
  updateInternalTime (u32 (lastTimeUpdateMillis s + k)) s = s.
Proof.
  intros Hk. unfold updateInternalTime. cbv zeta.
  rewrite u32_forward by (change (2 ^ 32) with 4294967296; lia).
  destruct (Z.leb_spec 1000 k); [lia|reflexivity].
Qed.

(** ** The cascade computes its arithmetic reading *)

Lemma monthCarry_withTime (h mi sc : Z) (d : DateTime) :
  monthCarry (set_second sc (set_minute mi (set_hour h d)))
  = set_second sc (set_minute mi (set_hour h (monthCarry d))).
Proof.
  unfold monthCarry. cbv zeta. fields.
  destruct (12 <? u8 (month d + 1)); reflexivity.
Qed.

Lemma monthLoop_withTime (n : nat) : forall (h mi sc : Z) (d : DateTime),
  monthLoop n (set_second sc (set_minute mi (set_hour h d)))
  = set_second sc (set_minute mi (set_hour h (monthLoop n d))).
Proof.
  induction n as [|n IH]; intros h mi sc d; [reflexivity|].
  cbn [monthLoop].
  replace (daysInMonth (year (set_second sc (set_minute mi (set_hour h d))))
             (month (set_second sc (set_minute mi (set_hour h d))))
           <? day (set_second sc (set_minute mi (set_hour h d))))
    with (daysInMonth (year d) (month d) <? day d) by reflexivity.
  destruct (daysInMonth (year d) (month d) <? day d); [|reflexivity].
  rewrite monthCarry_withTime. apply IH.
Qed.

Lemma withTimeOfDay_eq (t : Z) (d : DateTime) (h mi sc : Z) :
  h = t / 3600 -> mi = t / 60 mod 60 -> sc = t mod 60 ->
  set_second sc (set_minute mi (set_hour h d)) = withTimeOfDay t d.
Proof. intros -> -> ->. reflexivity. Qed.

(** The nested [if]s of the cascade compute [rolloverSpec] on every clock
    whose hour and minute are within bounds and whose seconds fit a byte. *)
Lemma rollover_spec (d : DateTime) :
  0 <= second d < 256 -> 0 <= hour d < 24 -> 0 <= minute d < 60 ->
  0 <= day d < 255 -> 1 <= dayOfWeek d <= 7 ->
  rollover d = rolloverSpec d.
Proof.
  destruct d as [y m dd h mi s w].
  cbn [second month day hour minute dayOfWeek year].
  intros Hs Hh Hmi Hd Hw.
  rewrite rollover_mk.
  unfold rolloverSpec, secondsOfDay. cbv zeta. fields.
  destruct (Z.leb_spec 60 s) as [S60|S60].
  2:{ destruct (Z.ltb_spec (h * 3600 + mi * 60 + s) 86400); [|lia].
      unfold withTimeOfDay. fields. f_equal; euclid. }
  rewrite (u8_small (mi + s / 60)) by euclid.
  rewrite (u8_small (s mod 60)) by euclid.
  destruct (Z.leb_spec 60 (mi + s / 60)) as [M60|M60].
  2:{ destruct (Z.ltb_spec (h * 3600 + mi * 60 + s) 86400); [|euclid].
      unfold withTimeOfDay. fields. f_equal; euclid. }
  assert (Hq : (mi + s / 60) / 60 = 1) by euclid.
  rewrite Hq.
  rewrite (u8_small (h + 1)) by lia.
  rewrite (u8_small ((mi + s / 60) mod 60)) by euclid.
  destruct (Z.leb_spec 24 (h + 1)) as [H24|H24].
  2:{ destruct (Z.ltb_spec (h * 3600 + mi * 60 + s) 86400); [|euclid].
      unfold withTimeOfDay. fields. f_equal; euclid. }
  assert (Hh23 : h = 23) by lia. subst h.
  change ((23 + 1) / 24) with 1. change ((23 + 1) mod 24) with 0.
  change (u8 1) with 1. change (u8 0) with 0.
  rewrite (u8_small (dd + 1)) by lia.
  replace (w - 1 + 1) with w by ring.
  rewrite Z.rem_mod_nonneg by lia.
  rewrite (u8_small (w mod 7 + 1)) by euclid.
  destruct (Z.ltb_spec (23 * 3600 + mi * 60 + s) 86400); [euclid|].
  unfold nextDay. fields.
  rewrite <- (withTimeOfDay_eq (23 * 3600 + mi * 60 + s - 86400) _
                0 ((mi + s / 60) mod 60) (s mod 60)) by euclid.
  rewrite <- monthLoop_withTime. reflexivity.
Qed.

Lemma withTimeOfDay_absorb (t h mi sc : Z) (d : DateTime) :
  withTimeOfDay t (set_second sc (set_minute mi (set_hour h d)))
  = withTimeOfDay t d.
Proof. reflexivity. Qed.

Lemma nextDay_withTime (h mi sc : Z) (d : DateTime) :
  nextDay (set_second sc (set_minute mi (set_hour h d)))
  = set_second sc (set_minute mi (set_hour h (nextDay d))).
Proof.
  unfold nextDay. rewrite <- monthLoop_withTime. reflexivity.
Qed.

(** Time-of-day updates do not reach the date: the day carried into the
    date is the same whatever the clock face shows. *)
Lemma withTimeOfDay_nextDay (t h mi sc : Z) (d : DateTime) :
  withTimeOfDay t (nextDay (mkDateTime (year d) (month d) (day d) h mi sc
                                       (dayOfWeek d)))
  = withTimeOfDay t (nextDay d).
Proof.
  change (mkDateTime (year d) (month d) (day d) h mi sc (dayOfWeek d))
    with (set_second sc (set_minute mi (set_hour h d))).
  rewrite nextDay_withTime. apply withTimeOfDay_absorb.
Qed.

(** The cascade after [second] has been overwritten. *)
Lemma rolloverSpec_set_second (v : Z) (d : DateTime) :
  rolloverSpec (set_second v d)
  = if hour d * 3600 + minute d * 60 + v <? 86400
    then withTimeOfDay (hour d * 3600 + minute d * 60 + v) d
    else withTimeOfDay (hour d * 3600 + minute d * 60 + v - 86400)
                       (nextDay d).
Proof.
  unfold rolloverSpec, secondsOfDay. cbv zeta.
  unfold set_second at 1 2 3 4 5 6 7.
  cbn [hour minute second].
  destruct (hour d * 3600 + minute d * 60 + v <? 86400); [reflexivity|].
  unfold set_second. rewrite withTimeOfDay_nextDay. reflexivity.
Qed.

(** Adding [e1] seconds and then [e2] seconds is adding [e1 + e2] seconds,
    as long as the two together stay below one day. *)
Lemma rolloverSpec_add (d : DateTime) (e1 e2 : Z) :
  0 <= hour d < 24 -> 0 <= minute d < 60 -> 0 <= second d < 60 ->
  0 <= e1 -> 0 <= e2 -> e1 + e2 < 86400 ->
  let d1 := rolloverSpec (set_second (second d + e1) d) in
  rolloverSpec (set_second (second d1 + e2) d1)
  = rolloverSpec (set_second (second d + e1 + e2) d).
Proof.
  intros Hh Hmi Hs He1 He2 He d1.
  assert (E1 : d1 = rolloverSpec (set_second (second d + e1) d))
    by reflexivity.
  clearbody d1. rewrite rolloverSpec_set_second in E1.
  rewrite !rolloverSpec_set_second.
  destruct (Z.ltb_spec (hour d * 3600 + minute d * 60 + (second d + e1))
                       86400) as [A|B]; subst d1.
  - (* midnight is not reached by the first call *)
    assert (ET : hour (withTimeOfDay
                         (hour d * 3600 + minute d * 60 + (second d + e1)) d)
                 * 3600
                 + minute (withTimeOfDay
                         (hour d * 3600 + minute d * 60 + (second d + e1)) d)
                   * 60
                 + (second (withTimeOfDay
                         (hour d * 3600 + minute d * 60 + (second d + e1)) d)
                    + e2)
                 = hour d * 3600 + minute d * 60 + (second d + e1 + e2)).
    { unfold withTimeOfDay. fields. euclid. }
    rewrite ET.
    destruct (hour d * 3600 + minute d * 60 + (second d + e1 + e2)
              <? 86400); [reflexivity|].
    unfold withTimeOfDay at 2. unfold set_second, set_minute, set_hour.
    cbn [year month day hour minute second dayOfWeek].
    rewrite withTimeOfDay_nextDay. reflexivity.
  - (* midnight is passed by the first call *)
    set (D := nextDay d).
    assert (ET : hour (withTimeOfDay
                   (hour d * 3600 + minute d * 60 + (second d + e1) - 86400)
                   D) * 3600
                 + minute (withTimeOfDay
                   (hour d * 3600 + minute d * 60 + (second d + e1) - 86400)
                   D) * 60
                 + (second (withTimeOfDay
                   (hour d * 3600 + minute d * 60 + (second d + e1) - 86400)
                   D) + e2)
                 = hour d * 3600 + minute d * 60 + (second d + e1 + e2)
                   - 86400).
    { unfold withTimeOfDay. fields. euclid. }
    rewrite ET.
    destruct (Z.ltb_spec (hour d * 3600 + minute d * 60
                          + (second d + e1 + e2) - 86400) 86400); [|lia].
    destruct (Z.ltb_spec (hour d * 3600 + minute d * 60
                          + (second d + e1 + e2)) 86400); [lia|].
    reflexivity.
Qed.

(** ** Two calls in a row, within the range of the 8-bit second *)

Lemma rollover_unchanged (d : DateTime) :
  second d < 60 -> rollover (set_second (second d + 0) d) = d.
Proof.
  destruct d as [y m dd h mi sc w]. cbn [second]. intros Hs.
  rewrite Z.add_0_r. unfold set_second. cbn [year month day hour minute
    second dayOfWeek]. rewrite rollover_mk.
  destruct (Z.leb_spec 60 sc); [lia|reflexivity].
Qed.

Lemma rollover_add (d : DateTime) (e1 e2 : Z) :
  fits_layout d -> atRest d ->
  0 <= e1 -> 0 <= e2 -> second d + e1 + e2 < 256 ->
  let d1 := rollover (set_second (second d + e1) d) in
  rollover (set_second (second d1 + e2) d1)
  = rollover (set_second (second d + e1 + e2) d) /\
  second d1 <= second d + e1.
Proof.
  intros F R He1 He2 Hb d1.
  pose proof F as (Hy & Hm & Hd & Hh & Hmi & Hs & Hw).
  pose proof R as (Rm & Rd & Rh & Rmi & Rs & Rw).
  pose proof (daysInMonth_bounds (year d) (month d)) as B.
  assert (R1 : atRest d1).
  { apply rollover_atRest; fields; lia. }
  assert (F1 : fits_layout d1).
  { apply rollover_fits. unfold fits_layout. fields. repeat split; lia. }
  assert (E1 : d1 = rolloverSpec (set_second (second d + e1) d)).
  { apply rollover_spec; fields; lia. }
  assert (S1 : second d1 <= second d + e1).
  { rewrite E1, rolloverSpec_set_second.
    destruct (hour d * 3600 + minute d * 60 + (second d + e1) <? 86400);
      unfold withTimeOfDay; fields; euclid. }
  split; [|exact S1].
  destruct F1 as (Hy1 & Hm1 & Hd1 & Hh1 & Hmi1 & Hs1 & Hw1).
  destruct R1 as (Rm1 & Rd1 & Rh1 & Rmi1 & Rs1 & Rw1).
  pose proof (daysInMonth_bounds (year d1) (month d1)) as B1.
  rewrite (rollover_spec (set_second (second d1 + e2) d1))
    by (fields; lia).
  rewrite (rollover_spec (set_second (second d + e1 + e2) d))
    by (fields; lia).
  rewrite E1. apply rolloverSpec_add; lia.
Qed.

(** One call, [k] milliseconds after the reference, on a clock at rest. *)
Lemma updateInternalTime_elapsed (k : Z) (s : State) :
  clockFits s -> atRest (currentDateTime s) ->
  0 <= k < 2 ^ 32 ->
  second (currentDateTime s) + k / 1000 < 256 ->
  updateInternalTime (u32 (lastTimeUpdateMillis s + k)) s
  = mkState
      (rollover (set_second (second (currentDateTime s) + k / 1000)
                            (currentDateTime s)))
      (u32 (lastTimeUpdateMillis s + k / 1000 * 1000))
      (centralConnected s) (connectedCentral s) (ledState s)
      (tLedBlinkEnabled s).
Proof.
  intros (F & L) R Hk Hb.
  pose proof F as (Hy & Hm & Hd & Hh & Hmi & Hs & Hw).
  pose proof R as (Rm & Rd & Rh & Rmi & Rs & Rw).
  destruct (Z.lt_ge_cases k 1000) as [Lt|Ge].
  - rewrite updateInternalTime_idle by lia.
    replace (k / 1000) with 0 by euclid.
    rewrite rollover_unchanged by lia.
    rewrite Z.add_0_r, u32_small by lia.
    destruct s; reflexivity.
  - rewrite updateInternalTime_forward by lia.
    rewrite u8_small by euclid. reflexivity.
Qed.

(** Two successive calls give what the second call alone would have given,
    provided the seconds field plus the whole seconds elapsed stays within
    a byte. *)
Lemma updateInternalTime_twice (a b : Z) (s : State) :
  clockFits s -> atRest (currentDateTime s) ->
  0 <= a -> 0 <= b ->
  second (currentDateTime s) + (a + b) / 1000 < 256 ->
  updateInternalTime (u32 (lastTimeUpdateMillis s + (a + b)))
    (updateInternalTime (u32 (lastTimeUpdateMillis s + a)) s)
  = updateInternalTime (u32 (lastTimeUpdateMillis s + (a + b))) s.
Proof.
  intros C R Ha Hb Hbyte.
  pose proof C as (F & L).
  pose proof F as (Hy & Hm & Hd & Hh & Hmi & Hs & Hw).
  change (2 ^ 32) with 4294967296 in *.
  assert (Hab : a + b < 256000) by euclid.
  set (e1 := a / 1000).
  set (k2 := a + b - e1 * 1000).
  assert (He1 : 0 <= e1 /\ e1 * 1000 <= a < e1 * 1000 + 1000)
    by (subst e1; euclid).
  assert (Hk2 : 0 <= k2 < 256000) by (subst k2; lia).
  assert (Hsum : (a + b) / 1000 = e1 + k2 / 1000)
    by (subst k2 e1; euclid).
  assert (Hq2 : 0 <= k2 / 1000) by euclid.
  pose proof (updateInternalTime_fits (u32 (lastTimeUpdateMillis s + a)) s C)
    as C1.
  pose proof (updateInternalTime_atRest
                (u32 (lastTimeUpdateMillis s + a)) s F R) as R1.
  rewrite (updateInternalTime_elapsed (a + b) s C R)
    by (change (2 ^ 32) with 4294967296; lia).
  pose proof (updateInternalTime_elapsed a s C R) as Ea.
  fold e1 in Ea.
  rewrite Ea in C1, R1 |- * by (change (2 ^ 32) with 4294967296; lia).
  set (s1 := mkState _ (u32 (lastTimeUpdateMillis s + e1 * 1000)) _ _ _ _)
    in *.
  assert (Ec : u32 (lastTimeUpdateMillis s + (a + b))
               = u32 (lastTimeUpdateMillis s1 + k2)).
  { subst s1. cbn [lastTimeUpdateMillis]. unfold u32.
    rewrite Zplus_mod_idemp_l. f_equal. subst k2. ring. }
  destruct (rollover_add (currentDateTime s) e1 (k2 / 1000) F R)
    as (Eadd & Sle); [lia | euclid | lia |].
  rewrite Ec.
  rewrite (updateInternalTime_elapsed k2 s1 C1 R1)
    by (change (2 ^ 32) with 4294967296; subst s1;
        cbn [currentDateTime]; lia).
  subst s1. cbn [currentDateTime lastTimeUpdateMillis centralConnected
                 connectedCentral ledState tLedBlinkEnabled].
  rewrite Eadd, Hsum. f_equal.
  - f_equal. f_equal. ring.
  - unfold u32. rewrite Zplus_mod_idemp_l. f_equal. ring.
Qed.

(** ** Any number of calls, within the range of the 8-bit second *)

Lemma total_nonneg (deltas : list Z) :
  Forall (fun d => 0 <= d) deltas -> 0 <= total deltas.
Proof.
  induction 1 as [|d ds Hd _ IH]; cbn; [lia|]. unfold total in IH. lia.
Qed.

(** Where the code does keep the promise of cumulative correctness: the
    counter is [p] milliseconds ahead of the reference to begin with, and is
    then moved forward by each delta in turn with a call after each move.
    If the seconds field plus the whole seconds pending in total stays
    below 256, the calls together leave the globals exactly as one call
    after the last move would have: same date-time, same reference. *)
Theorem advanceRepeatedly_within_byte (deltas : list Z) :
  forall (s : State) (p : Z),
  clockFits s -> atRest (currentDateTime s) ->
  0 <= p -> Forall (fun d => 0 <= d) deltas -> deltas <> [] ->
  second (currentDateTime s) + (p + total deltas) / 1000 < 256 ->
  advanceRepeatedly (u32 (lastTimeUpdateMillis s + p)) deltas s
  = updateInternalTime (u32 (lastTimeUpdateMillis s + p + total deltas)) s.
Proof.
  induction deltas as [|d ds IH]; intros s p C R Hp Hall Hne Hbyte;
    [contradiction|].
  inversion Hall as [|? ? Hd Hds]; subst.
  pose proof (total_nonneg ds Hds) as Hts.
  change (total (d :: ds)) with (d + total ds) in *.
  cbn [advanceRepeatedly].
  assert (Ec : u32 (u32 (lastTimeUpdateMillis s + p) + d)
               = u32 (lastTimeUpdateMillis s + (p + d))).
  { unfold u32. rewrite Zplus_mod_idemp_l. f_equal. ring. }
  rewrite Ec.
  destruct ds as [|d' ds'].
  - cbn. f_equal. f_equal. ring.
  - set (ds := d' :: ds') in *.
    pose proof C as (F & L).
    pose proof F as (Hy & Hm & Hdd & Hh & Hmi & Hs & Hw).
    set (e1 := (p + d) / 1000).
    assert (He1 : 0 <= e1 /\ e1 * 1000 <= p + d < e1 * 1000 + 1000)
      by (subst e1; euclid).
    assert (Hq : (p + (d + total ds)) / 1000
                 = e1 + (p + d - e1 * 1000 + total ds) / 1000)
      by (subst e1; euclid).
    assert (Hq0 : 0 <= (p + d - e1 * 1000 + total ds) / 1000) by euclid.
    assert (Hlt : p + (d + total ds) < 256000) by euclid.
    pose proof (updateInternalTime_fits
                  (u32 (lastTimeUpdateMillis s + (p + d))) s C) as C1.
    pose proof (updateInternalTime_atRest
                  (u32 (lastTimeUpdateMillis s + (p + d))) s F R) as R1.
    pose proof (updateInternalTime_elapsed (p + d) s C R) as E1.
    fold e1 in E1.
    assert (E1' := E1 ltac:(change (2 ^ 32) with 4294967296; lia)
                      ltac:(lia)).
    clear E1.
    destruct (rollover_add (currentDateTime s) e1 0 F R) as (_ & Sle);
      [lia | lia | lia |].
    remember (updateInternalTime (u32 (lastTimeUpdateMillis s + (p + d))) s)
      as s1 eqn:Es1.
    assert (El : lastTimeUpdateMillis s1
                 = u32 (lastTimeUpdateMillis s + e1 * 1000))
      by (rewrite E1'; reflexivity).
    assert (Esec : second (currentDateTime s1) <= second (currentDateTime s)
                                                  + e1)
      by (rewrite E1'; exact Sle).
    assert (Ec1 : u32 (lastTimeUpdateMillis s + (p + d))
                  = u32 (lastTimeUpdateMillis s1 + (p + d - e1 * 1000))).
    { rewrite El. unfold u32. rewrite Zplus_mod_idemp_l. f_equal. ring. }
    rewrite Ec1.
    rewrite (IH s1 (p + d - e1 * 1000) C1 R1); try assumption;
      [| lia | discriminate | lia].
    assert (Ec2 : u32 (lastTimeUpdateMillis s1 + (p + d - e1 * 1000)
                       + total ds)
                  = u32 (lastTimeUpdateMillis s + (p + d + total ds))).
    { replace (lastTimeUpdateMillis s1 + (p + d - e1 * 1000) + total ds)
        with (lastTimeUpdateMillis s1 + (p + d - e1 * 1000 + total ds))
        by ring.
      rewrite El. unfold u32. rewrite Zplus_mod_idemp_l. f_equal. ring. }
    rewrite Ec2, Es1.
    rewrite (updateInternalTime_twice (p + d) (total ds) s C R);
      [| lia | lia |].
    + f_equal. f_equal. ring.
    + replace (p + d + total ds) with (p + (d + total ds)) by ring. lia.
Qed.

Lemma advanceRepeatedly_within_byte_witness :
  advanceRepeatedly (u32 (0 + 250)) [300; 700; 61000; 4; 120000]
                    initialState
  = updateInternalTime (u32 (0 + 250 + 182004)) initialState.
Proof.
  apply (advanceRepeatedly_within_byte [300; 700; 61000; 4; 120000]
           initialState 250).
  - unfold clockFits, fits_layout. cbn. lia.
  - unfold atRest. cbn. lia.
  - lia.
  - repeat constructor; lia.
  - discriminate.
  - cbn. lia.
Defined.

(** ** The clock: invariant, calendar boundaries, accumulation *)

(** C8: the at-rest bounds are preserved by one call of
    [updateInternalTime]: if the month is in 1..12, the day in
    1..days-in-month, hour < 24, minute < 60, second < 60 and the day of
    week in 1..7 before the call, the same holds after it, whatever value
    [millis()] returns. *)
Theorem updateInternalTime_preserves_atRest (currentMillis : Z) (s : State) :
  fits_layout (currentDateTime s) ->
  atRest (currentDateTime s) ->
  atRest (currentDateTime (updateInternalTime currentMillis s)).
Proof. exact (updateInternalTime_atRest currentMillis s). Qed.

Lemma updateInternalTime_preserves_atRest_witness :
  atRest (currentDateTime
            (updateInternalTime 90061000
               (mkState (mkDateTime 2024 12 31 23 59 59 7) 61000 false
                        (mkBLEDevice "c0:ff:ee") false true))).
Proof.
  apply updateInternalTime_preserves_atRest; cbn;
    unfold fits_layout, atRest; cbn; lia.
Defined.

Lemma dayOfWeek_cases (w : Z) :
  1 <= w <= 7 ->
  w = 1 \/ w = 2 \/ w = 3 \/ w = 4 \/ w = 5 \/ w = 6 \/ w = 7.
Proof. lia. Qed.

(** C2: calendar boundaries.  One second (1000 ms on the counter) after
    2024-02-28 23:59:59, a Wednesday (3), the clock reads 2024-02-29
    00:00:00 with day of week 4; after 2023-02-28 23:59:59 it reads
    2023-03-01 00:00:00; after 2024-12-31 23:59:59 it reads 2025-01-01
    00:00:00; in the last two cases the day of week [w] moves on by exactly
    one day (7 is followed by 1). *)
Theorem calendar_boundary_rollovers (s : State) (w : Z) :
  1 <= w <= 7 ->
  let s' := updateInternalTime (u32 (lastTimeUpdateMillis s + 1000)) s in
  (currentDateTime s = mkDateTime 2024 2 28 23 59 59 3 ->
   currentDateTime s' = mkDateTime 2024 2 29 0 0 0 4) /\
  (currentDateTime s = mkDateTime 2023 2 28 23 59 59 w ->
   currentDateTime s' = mkDateTime 2023 3 1 0 0 0 (w mod 7 + 1)) /\
  (currentDateTime s = mkDateTime 2024 12 31 23 59 59 w ->
   currentDateTime s' = mkDateTime 2025 1 1 0 0 0 (w mod 7 + 1)).
Proof.
  intros Hw. cbv zeta.
  rewrite updateInternalTime_forward by (cbv; split; discriminate || reflexivity).
  cbn [currentDateTime].
  repeat split; intros E; rewrite E.
  - reflexivity.
  - destruct (dayOfWeek_cases w Hw) as [W|[W|[W|[W|[W|[W|W]]]]]];
      subst w; reflexivity.
  - destruct (dayOfWeek_cases w Hw) as [W|[W|[W|[W|[W|[W|W]]]]]];
      subst w; reflexivity.
Qed.

Lemma calendar_boundary_rollovers_witness :
  currentDateTime
    (updateInternalTime (u32 (4294967000 + 1000))
       (mkState (mkDateTime 2024 12 31 23 59 59 7) 4294967000 true
                (mkBLEDevice "c0:ff:ee") true false))
  = mkDateTime 2025 1 1 0 0 0 1.
Proof.
  pose proof (calendar_boundary_rollovers
                (mkState (mkDateTime 2024 12 31 23 59 59 7) 4294967000 true
                         (mkBLEDevice "c0:ff:ee") true false) 7) as H.
  cbv zeta in H. cbn [lastTimeUpdateMillis currentDateTime] in H.
  destruct H as (_ & _ & H); [lia|].
  apply H. reflexivity.
Defined.

(** C1: cumulative correctness of [updateInternalTime] does not hold on
    the code.  From the initial clock (2024-01-01 00:00:00, reference 0,
    within the at-rest bounds), one call with the counter 256000 ms ahead
    leaves the time at 00:00:00: the 256 elapsed seconds are added to the
    8-bit [second] field and wrap to 0.  Two calls 128000 ms apart, for the
    same total, reach 00:04:16.  The reference ends at 256000 either way. *)
Theorem cumulative_advance_diverges :
  atRest (currentDateTime initialState) /\
  updateInternalTime (u32 (0 + 256000)) initialState
  = set_lastTimeUpdateMillis 256000 initialState /\
  advanceRepeatedly 0 [128000; 128000] initialState
  = set_lastTimeUpdateMillis 256000
      (set_currentDateTime (mkDateTime 2024 1 1 0 4 16 1) initialState) /\
  updateInternalTime (u32 (0 + 256000)) initialState
  <> advanceRepeatedly 0 [128000; 128000] initialState.
Proof.
  split; [unfold atRest; cbn; lia|].
  split; [reflexivity|]. split; [reflexivity|].
  intros E. apply (f_equal (fun s => minute (currentDateTime s))) in E.
  vm_compute in E. discriminate E.
Qed.

(** ** The Current Time codec *)

Lemma land_255 (z : Z) : Z.land z 255 = z mod 256.
Proof. change 255 with (Z.ones 8). rewrite Z.land_ones by lia. reflexivity. Qed.

Lemma shiftr_8 (z : Z) : Z.shiftr z 8 = z / 256.
Proof. rewrite Z.shiftr_div_pow2 by lia. reflexivity. Qed.

(** Two bytes put together with [|] and [<<] add up. *)
Lemma lor_shiftl_8 (lo hi : Z) :
  0 <= lo < 256 -> Z.lor lo (Z.shiftl hi 8) = lo + 256 * hi.
Proof.
  intros Hlo.
  assert (D : Z.land lo (Z.shiftl hi 8) = 0).
  { apply Z.bits_inj'. intros n Hn.
    rewrite Z.land_spec, Z.bits_0.
    destruct (Z.lt_ge_cases n 8) as [L|G].
    - rewrite (Z.shiftl_spec_low hi 8 n L). apply andb_false_r.
    - rewrite <- (Z.mod_small lo (2 ^ 8)) by exact Hlo.
      rewrite Z.mod_pow2_bits_high by lia. reflexivity. }
  rewrite <- Z.lxor_lor by exact D.
  rewrite <- Z.add_nocarry_lxor by exact D.
  rewrite Z.shiftl_mul_pow2 by lia. change (2 ^ 8) with 256. ring.
Qed.

Lemma timeData_year_bytes (y : Z) :
  0 <= y < 65536 ->
  u8 (Z.land y 255) = y mod 256 /\ u8 (Z.land (Z.shiftr y 8) 255) = y / 256.
Proof.
  intros Hy. rewrite shiftr_8, !land_255.
  rewrite !u8_small by euclid.
  split; [reflexivity|]. apply Z.mod_small. euclid.
Qed.

(** C7: wire layout of the Current Time value: [writeCurrentTime] hands
    the BLE stack exactly 10 bytes, the year low byte first (year mod 256,
    then year div 256), then month, day, hour, minute, second and day of
    week, and a fractions byte that is always 0. *)
Theorem timeData_layout (d : DateTime) :
  fits_layout d ->
  List.length (timeData d) = 10%nat /\
  byteAt (timeData d) 0 = year d mod 256 /\
  byteAt (timeData d) 1 = year d / 256 /\
  byteAt (timeData d) 2 = month d /\
  byteAt (timeData d) 3 = day d /\
  byteAt (timeData d) 4 = hour d /\
  byteAt (timeData d) 5 = minute d /\
  byteAt (timeData d) 6 = second d /\
  byteAt (timeData d) 7 = dayOfWeek d /\
  byteAt (timeData d) 8 = 0.
Proof.
  intros (Hy & _).
  destruct (timeData_year_bytes (year d) Hy) as (E0 & E1).
  unfold timeData, byteAt. cbn [List.length nth].
  rewrite E0, E1. repeat split; reflexivity.
Qed.

Lemma timeData_layout_witness :
  byteAt (timeData (mkDateTime 2024 2 29 13 37 42 4)) 0 = 232 /\
  byteAt (timeData (mkDateTime 2024 2 29 13 37 42 4)) 1 = 7.
Proof.
  destruct (timeData_layout (mkDateTime 2024 2 29 13 37 42 4))
    as (_ & B0 & B1 & _).
  - unfold fits_layout. cbn. lia.
  - split; [exact B0 | exact B1].
Defined.

(** C5: round trip: parsing the 10 bytes that [writeCurrentTime] builds
    from a [DateTime] gives back the same year, month, day, hour, minute,
    second and day of week; the fractions and adjust-reason bytes play no
    part: the result is the same with any other two bytes in their place. *)
Theorem parseCurrentTime_timeData (d : DateTime) (fractions reason : Z) :
  fits_layout d ->
  parseCurrentTime (timeData d) = d /\
  parseCurrentTime (firstn 8 (timeData d) ++ [fractions; reason]) = d.
Proof.
  intros (Hy & _).
  destruct (timeData_year_bytes (year d) Hy) as (E0 & E1).
  destruct d as [y m dd h mi s w]. cbn [year] in *.
  unfold parseCurrentTime, timeData, byteAt.
  cbn [firstn app nth year month day hour minute second dayOfWeek].
  rewrite E0, E1.
  rewrite lor_shiftl_8 by euclid.
  rewrite u16_small by euclid.
  split; f_equal; euclid.
Qed.

Lemma parseCurrentTime_timeData_witness :
  parseCurrentTime (timeData (mkDateTime 65535 12 31 23 59 59 7))
  = mkDateTime 65535 12 31 23 59 59 7.
Proof.
  apply (parseCurrentTime_timeData (mkDateTime 65535 12 31 23 59 59 7) 0 0).
  unfold fits_layout. cbn. lia.
Defined.

(** The parser reads bytes 0 to 7 only. *)
Lemma parseCurrentTime_ignores_tail (b0 b1 b2 b3 b4 b5 b6 b7 : Z)
    (rest rest' : list Z) :
  parseCurrentTime ([b0; b1; b2; b3; b4; b5; b6; b7] ++ rest)
  = parseCurrentTime ([b0; b1; b2; b3; b4; b5; b6; b7] ++ rest').
Proof. reflexivity. Qed.

(** ** Handlers: state and trace *)

Lemma validTime_inRange (d : DateTime) : validTime d = true <-> inRange d.
Proof.
  unfold validTime, inRange.
  rewrite !andb_true_iff, !Z.leb_le. tauto.
Qed.

Lemma validTime_not_inRange (d : DateTime) :
  validTime d = false <-> ~ inRange d.
Proof.
  rewrite <- validTime_inRange. destruct (validTime d); split; intros H;
    try reflexivity; try discriminate; try (intros E; discriminate E).
  exfalso. apply H. reflexivity.
Qed.

(** Printing leaves the globals alone. *)
Lemma forEach_state {A : Type} (body : A -> M unit) (l : list A) :
  (forall x s, finalState (body x s) = s) ->
  forall s, finalState (forEach l body s) = s.
Proof.
  intros Hbody. induction l as [|x l IH]; intros s; [reflexivity|].
  cbn [forEach]. unfold bind, finalState in *.
  specialize (Hbody x s).
  destruct (body x s) as [[u s1] t1]. cbn in Hbody. subst s1.
  specialize (IH s).
  destruct (forEach l body s) as [[u2 s2] t2]. exact IH.
Qed.

Lemma printRawData_state (data : list Z) (len : nat) (s : State) :
  finalState (printRawData data len s) = s.
Proof.
  unfold printRawData.
  set (body := fun i : nat => _).
  assert (Hloop : forall s0, finalState (forEach (seq 0 len) body s0) = s0).
  { apply forEach_state. intros i s0. subst body. cbv beta.
    destruct (byteAt data i <? 16);
      destruct (Z.of_nat i <? Z.of_nat len - 1); reflexivity. }
  unfold bind, emit, finalState in *.
  specialize (Hloop s).
  destruct (forEach (seq 0 len) body s) as [[u s1] t1].
  cbn in *. exact Hloop.
Qed.

Lemma printRawData_run (data : list Z) (len : nat) (s : State) :
  printRawData data len s = (tt, s, trace (printRawData data len s)).
Proof.
  pose proof (printRawData_state data len s) as H.
  unfold finalState, trace in *.
  destruct (printRawData data len s) as [[[] s1] t1].
  cbn in *. subst s1. reflexivity.
Qed.

Lemma printed_app (text : string) (t1 t2 : list Effect) :
  printed text (t1 ++ t2) = printed text t1 || printed text t2.
Proof. unfold printed. apply existsb_app. Qed.

(** A write of the wrong length: the globals are untouched. *)
Lemma currentTimeWrittenHandler_wrong_length
    (now : Z) (central : BLEDevice) (value : list Z) (s : State) :
  List.length value <> 10%nat ->
  currentTimeWrittenHandler now central value s
  = (tt, s,
     [SerialPrint "Current Time characteristic written by: ";
      SerialPrint (address central);
      SerialPrint "Received data with incorrect length: ";
      SerialPrintNum (Z.of_nat (List.length value))]
     ++ trace (printRawData value (List.length value) s)).
Proof.
  intros Hlen. unfold currentTimeWrittenHandler.
  destruct (Nat.eqb_spec (List.length value) 10) as [E|_]; [contradiction|].
  unfold bind at 1 2 3 4. unfold emit.
  rewrite printRawData_run. reflexivity.
Qed.

(** A write of ten bytes that fails the validation: the globals are
    untouched. *)
Lemma currentTimeWrittenHandler_invalid
    (now : Z) (central : BLEDevice) (value : list Z) (s : State) :
  List.length value = 10%nat ->
  validTime (parseCurrentTime value) = false ->
  currentTimeWrittenHandler now central value s
  = (tt, s,
     [SerialPrint "Current Time characteristic written by: ";
      SerialPrint (address central)]
     ++ trace (printRawData value 10 s)
     ++ [SerialPrint "Received invalid time data format."]).
Proof.
  intros Hlen Hv. unfold currentTimeWrittenHandler.
  rewrite Hlen. cbn [Nat.eqb]. cbv zeta. rewrite Hv.
  unfold bind at 1 2 3. unfold emit.
  rewrite printRawData_run. reflexivity.
Qed.

(** A write of ten bytes that passes the validation: the parsed time is
    stored and the reference is set to [millis()]. *)
Lemma currentTimeWrittenHandler_valid
    (now : Z) (central : BLEDevice) (value : list Z) (s : State) :
  List.length value = 10%nat ->
  validTime (parseCurrentTime value) = true ->
  currentTimeWrittenHandler now central value s
  = (tt,
     mkState (parseCurrentTime value) now (centralConnected s)
             (connectedCentral s) (ledState s) (tLedBlinkEnabled s),
     [SerialPrint "Current Time characteristic written by: ";
      SerialPrint (address central)]
     ++ trace (printRawData value 10 s)
     ++ [SerialPrint "Internal time updated by client:";
         SerialPrintTime "  New Time: " (parseCurrentTime value)]).
Proof.
  intros Hlen Hv. unfold currentTimeWrittenHandler.
  rewrite Hlen. cbn [Nat.eqb]. cbv zeta. rewrite Hv.
  unfold bind at 1 2 3. unfold emit.
  rewrite printRawData_run.
  destruct (parseCurrentTime value) as [y m dd h mi sc w]. reflexivity.
Qed.

(** C3: authoritative write, all or nothing.  For a 10-byte value: if a
    validated field is out of range (month outside 1..12, day outside
    1..31, hour > 23, minute > 59, second > 59, day of week outside 1..7)
    the date-time and the reference (indeed every global) are unchanged and
    the error line is printed; if every validated field is in range, the
    seven fields of the clock are the parsed ones and the reference is the
    value of [millis()]. *)
Theorem currentTimeWrittenHandler_all_or_nothing
    (now : Z) (central : BLEDevice) (value : list Z) (s : State) :
  List.length value = 10%nat ->
  let r := currentTimeWrittenHandler now central value s in
  (~ inRange (parseCurrentTime value) ->
   finalState r = s /\
   printed "Received invalid time data format." (trace r) = true) /\
  (inRange (parseCurrentTime value) ->
   currentDateTime (finalState r) = parseCurrentTime value /\
   lastTimeUpdateMillis (finalState r) = now).
Proof.
  intros Hlen r. subst r. split; intros Hr.
  - apply validTime_not_inRange in Hr.
    rewrite (currentTimeWrittenHandler_invalid now central value s Hlen Hr).
    split; [reflexivity|].
    unfold trace at 1. cbn [snd].
    rewrite !printed_app.
    replace (printed "Received invalid time data format."
               [SerialPrint "Received invalid time data format."])
      with true by reflexivity.
    rewrite !orb_true_r. reflexivity.
  - apply validTime_inRange in Hr.
    rewrite (currentTimeWrittenHandler_valid now central value s Hlen Hr).
    split; reflexivity.
Qed.

Lemma currentTimeWrittenHandler_all_or_nothing_witness :
  finalState
    (currentTimeWrittenHandler 5000 (mkBLEDevice "c0:ff:ee")
       [232; 7; 13; 1; 24; 0; 0; 1; 0; 0] initialState)
  = initialState.
Proof.
  pose proof (currentTimeWrittenHandler_all_or_nothing 5000
                (mkBLEDevice "c0:ff:ee")
                [232; 7; 13; 1; 24; 0; 0; 1; 0; 0] initialState
                eq_refl) as H.
  cbv zeta in H. destruct H as (H & _).
  apply H. unfold inRange. cbn. lia.
Defined.

(** C6: a write whose length is not exactly 10 bytes is rejected: the
    date-time and the reference (indeed every global) are unchanged, the
    wrong-length line is printed with the length received, and no byte of
    the value is parsed. *)
Theorem currentTimeWrittenHandler_rejects_wrong_length
    (now : Z) (central : BLEDevice) (value : list Z) (s : State) :
  List.length value <> 10%nat ->
  let r := currentTimeWrittenHandler now central value s in
  finalState r = s /\
  currentDateTime (finalState r) = currentDateTime s /\
  lastTimeUpdateMillis (finalState r) = lastTimeUpdateMillis s /\
  printed "Received data with incorrect length: " (trace r) = true /\
  In (SerialPrintNum (Z.of_nat (List.length value))) (trace r).
Proof.
  intros Hlen r. subst r.
  rewrite (currentTimeWrittenHandler_wrong_length now central value s Hlen).
  split; [reflexivity|]. split; [reflexivity|]. split; [reflexivity|].
  unfold trace at 1 3. cbn [snd]. split.
  - rewrite printed_app. apply orb_true_iff. left.
    unfold printed. cbn [existsb].
    apply orb_true_iff. right. apply orb_true_iff. right.
    apply orb_true_iff. left. reflexivity.
  - apply in_or_app. left. cbn. auto.
Qed.

Lemma currentTimeWrittenHandler_rejects_wrong_length_witness :
  finalState
    (currentTimeWrittenHandler 5000 (mkBLEDevice "c0:ff:ee")
       [232; 7; 6; 15; 12; 30; 0] initialState)
  = initialState.
Proof.
  apply (currentTimeWrittenHandler_rejects_wrong_length 5000
           (mkBLEDevice "c0:ff:ee")
           [232; 7; 6; 15; 12; 30; 0] initialState).
  cbn. discriminate.
Defined.

(** C9: permissive validation.  A 10-byte write whose month is in 1..12,
    day in 1..31, hour <= 23, minute <= 59, second <= 59 and day of week in
    1..7 is applied, whatever the two year bytes are and whether or not the
    month has that many days: the clock then holds exactly the written
    fields (year = low byte + 256 * high byte). *)
Theorem currentTimeWrittenHandler_permissive
    (now : Z) (central : BLEDevice) (s : State)
    (y0 y1 mo dd h mi sc w fractions reason : Z) :
  0 <= y0 < 256 -> 0 <= y1 < 256 ->
  1 <= mo <= 12 -> 1 <= dd <= 31 -> h <= 23 -> mi <= 59 -> sc <= 59 ->
  1 <= w <= 7 ->
  let r := currentTimeWrittenHandler now central
             [y0; y1; mo; dd; h; mi; sc; w; fractions; reason] s in
  currentDateTime (finalState r) = mkDateTime (y0 + 256 * y1) mo dd h mi sc w
  /\ lastTimeUpdateMillis (finalState r) = now.
Proof.
  intros Hy0 Hy1 Hmo Hdd Hh Hmi Hsc Hw r. subst r.
  assert (P : parseCurrentTime
                [y0; y1; mo; dd; h; mi; sc; w; fractions; reason]
              = mkDateTime (y0 + 256 * y1) mo dd h mi sc w).
  { unfold parseCurrentTime, byteAt. cbn [nth].
    rewrite lor_shiftl_8 by lia. rewrite u16_small by lia. reflexivity. }
  rewrite currentTimeWrittenHandler_valid; [| reflexivity |].
  - rewrite P. split; reflexivity.
  - apply validTime_inRange. rewrite P. unfold inRange. cbn. lia.
Qed.

(** April 31st is accepted. *)
Lemma currentTimeWrittenHandler_permissive_witness :
  currentDateTime
    (finalState
       (currentTimeWrittenHandler 5000 (mkBLEDevice "c0:ff:ee")
          [232; 7; 4; 31; 12; 30; 0; 3; 0; 1] initialState))
  = mkDateTime 2024 4 31 12 30 0 3 /\
  daysInMonth 2024 4 < 31.
Proof.
  split; [|reflexivity].
  apply (currentTimeWrittenHandler_permissive 5000 (mkBLEDevice "c0:ff:ee")
           initialState 232 7 4 31 12 30 0 3 0 1); lia.
Defined.

(** ** Link handlers *)

Lemma blePeripheralConnectHandler_fresh
    (writeOk : bool) (central : BLEDevice) (s : State) :
  centralConnected s = false ->
  blePeripheralConnectHandler writeOk central s
  = (tt,
     mkState (currentDateTime s) (lastTimeUpdateMillis s) true central
             true false,
     [SerialPrint "Connected event for: "; SerialPrint (address central);
      DigitalWrite true; TaskDisable;
      SerialPrint "Connection established."; Delay 50;
      WriteValue currentTimeChar (timeData (currentDateTime s))]
     ++ (if writeOk then []
         else [SerialPrint "Error writing Current Time characteristic!"])
     ++ [Delay 10; WriteValue localTimeInfoChar [32; 0];
         Delay 10; WriteValue refTimeInfoChar [4; 254; 0; 0];
         SerialPrint "Initial characteristics sent."]).
Proof.
  intros Hc. destruct s as [d l c p led en]. cbn in Hc. subst c.
  destruct writeOk; reflexivity.
Qed.

Lemma blePeripheralConnectHandler_duplicate
    (writeOk : bool) (central : BLEDevice) (s : State) :
  centralConnected s = true ->
  blePeripheralConnectHandler writeOk central s
  = (tt,
     mkState (currentDateTime s) (lastTimeUpdateMillis s) true
             (connectedCentral s) true false,
     [SerialPrint "Connected event for: "; SerialPrint (address central);
      DigitalWrite true; TaskDisable;
      SerialPrint "Already connected, ignoring duplicate connect event."]).
Proof.
  intros Hc. destruct s as [d l c p led en]. cbn in Hc. subst c.
  reflexivity.
Qed.

Lemma blePeripheralDisconnectHandler_stale
    (advertiseOk : bool) (central : BLEDevice) (s : State) :
  centralConnected s = false ->
  blePeripheralDisconnectHandler advertiseOk central s
  = (tt,
     mkState (currentDateTime s) (lastTimeUpdateMillis s) false
             (connectedCentral s) false (tLedBlinkEnabled s),
     [SerialPrint "Disconnected event for: "; SerialPrint (address central);
      DigitalWrite false;
      SerialPrint "Ignoring disconnect event, was not connected."]).
Proof.
  intros Hc. destruct s as [d l c p led en]. cbn in Hc. subst c.
  reflexivity.
Qed.

Lemma blePeripheralDisconnectHandler_live
    (advertiseOk : bool) (central : BLEDevice) (s : State) :
  centralConnected s = true ->
  blePeripheralDisconnectHandler advertiseOk central s
  = (tt,
     mkState (currentDateTime s) (lastTimeUpdateMillis s) false
             (connectedCentral s) false true,
     [SerialPrint "Disconnected event for: "; SerialPrint (address central);
      DigitalWrite false; TaskEnable;
      SerialPrint "Connection terminated."; StopAdvertise;
      SerialPrint "Stopped advertising."; Delay 100; Advertise;
      SerialPrint (if advertiseOk then "Restarted advertising."
                   else "Failed to restart advertising!")]).
Proof.
  intros Hc. destruct s as [d l c p led en]. cbn in Hc. subst c.
  destruct advertiseOk; reflexivity.
Qed.

(** C4: link events.  A connect event while disconnected sets the link to
    connected, records the peer and writes each of the three
    characteristics exactly once; a connect event while connected leaves
    the link state, the peer and the clock as they are and writes no
    characteristic; a disconnect event while disconnected leaves the link
    disconnected, and neither stops nor restarts advertising. *)
Theorem link_event_dispatch
    (writeOk advertiseOk : bool) (central : BLEDevice) (s : State) :
  (centralConnected s = false ->
   let r := blePeripheralConnectHandler writeOk central s in
   centralConnected (finalState r) = true /\
   connectedCentral (finalState r) = central /\
   snapshotWrites (trace r) = (1%nat, 1%nat, 1%nat) /\
   In (WriteValue currentTimeChar (timeData (currentDateTime s)))
      (trace r)) /\
  (centralConnected s = true ->
   let r := blePeripheralConnectHandler writeOk central s in
   centralConnected (finalState r) = true /\
   connectedCentral (finalState r) = connectedCentral s /\
   currentDateTime (finalState r) = currentDateTime s /\
   lastTimeUpdateMillis (finalState r) = lastTimeUpdateMillis s /\
   snapshotWrites (trace r) = (0%nat, 0%nat, 0%nat)) /\
  (centralConnected s = false ->
   let r := blePeripheralDisconnectHandler advertiseOk central s in
   centralConnected (finalState r) = false /\
   connectedCentral (finalState r) = connectedCentral s /\
   tLedBlinkEnabled (finalState r) = tLedBlinkEnabled s /\
   ~ In StopAdvertise (trace r) /\ ~ In Advertise (trace r)).
Proof.
  repeat split.
  - rewrite blePeripheralConnectHandler_fresh by assumption. reflexivity.
  - rewrite blePeripheralConnectHandler_fresh by assumption. reflexivity.
  - rewrite blePeripheralConnectHandler_fresh by assumption.
    destruct writeOk; reflexivity.
  - rewrite blePeripheralConnectHandler_fresh by assumption.
    unfold trace. cbn [snd]. apply in_or_app. left. cbn. tauto.
  - rewrite blePeripheralConnectHandler_duplicate by assumption. reflexivity.
  - rewrite blePeripheralConnectHandler_duplicate by assumption. reflexivity.
  - rewrite blePeripheralConnectHandler_duplicate by assumption. reflexivity.
  - rewrite blePeripheralConnectHandler_duplicate by assumption. reflexivity.
  - rewrite blePeripheralConnectHandler_duplicate by assumption. reflexivity.
  - rewrite blePeripheralDisconnectHandler_stale by assumption. reflexivity.
  - rewrite blePeripheralDisconnectHandler_stale by assumption. reflexivity.
  - rewrite blePeripheralDisconnectHandler_stale by assumption. reflexivity.
  - rewrite blePeripheralDisconnectHandler_stale by assumption.
    cbn. intros [E|[E|[E|[E|[]]]]]; discriminate E.
  - rewrite blePeripheralDisconnectHandler_stale by assumption.
    cbn. intros [E|[E|[E|[E|[]]]]]; discriminate E.
Qed.

Lemma link_event_dispatch_witness :
  snapshotWrites
    (trace (blePeripheralConnectHandler true (mkBLEDevice "c0:ff:ee")
              initialState))
  = (1%nat, 1%nat, 1%nat).
Proof.
  destruct (link_event_dispatch true true (mkBLEDevice "c0:ff:ee")
              initialState) as (H & _ & _).
  destruct (H eq_refl) as (_ & _ & W & _). exact W.
Defined.

(** C10: events that are ignored still drive the indicator.  A connect
    event while already connected writes the LED high, sets [ledState] and
    disables the blink task, all before the duplicate is detected and
    logged; link state, peer and clock stay as they were and no
    characteristic is written.  A disconnect event while already
    disconnected writes the LED low and clears [ledState] before it is
    logged as ignored. *)
Theorem ignored_events_drive_indicator
    (writeOk advertiseOk : bool) (central : BLEDevice) (s : State) :
  (centralConnected s = true ->
   let r := blePeripheralConnectHandler writeOk central s in
   finalState r = set_tLedBlinkEnabled false (set_ledState true s) /\
   trace r =
     [SerialPrint "Connected event for: "; SerialPrint (address central);
      DigitalWrite true; TaskDisable;
      SerialPrint "Already connected, ignoring duplicate connect event."])
  /\
  (centralConnected s = false ->
   let r := blePeripheralDisconnectHandler advertiseOk central s in
   finalState r = set_ledState false s /\
   trace r =
     [SerialPrint "Disconnected event for: "; SerialPrint (address central);
      DigitalWrite false;
      SerialPrint "Ignoring disconnect event, was not connected."]).
Proof.
  split; intros Hc r; subst r.
  - rewrite blePeripheralConnectHandler_duplicate by assumption.
    split; [|reflexivity].
    destruct s as [d l c p led en]. cbn in Hc. subst c. reflexivity.
  - rewrite blePeripheralDisconnectHandler_stale by assumption.
    split; [|reflexivity].
    destruct s as [d l c p led en]. cbn in Hc. subst c. reflexivity.
Qed.

Lemma ignored_events_drive_indicator_witness :
  ledState
    (finalState
       (blePeripheralConnectHandler true (mkBLEDevice "c0:ff:ee")
          (mkState (mkDateTime 2024 1 1 0 0 0 1) 0 true
                   (mkBLEDevice "c0:ff:ee") false true)))
  = true.
Proof.
  destruct (ignored_events_drive_indicator true true
              (mkBLEDevice "c0:ff:ee")
              (mkState (mkDateTime 2024 1 1 0 0 0 1) 0 true
                       (mkBLEDevice "c0:ff:ee") false true)) as (H & _).
  destruct (H eq_refl) as (E & _).
  rewrite E. reflexivity.
Defined.

(** * Further properties of the sketch *)

(** ** The month table *)

Lemma isLeap_rule (y : Z) :
  isLeap y = true <-> (y mod 4 = 0 /\ y mod 100 <> 0) \/ y mod 400 = 0.
Proof.
  unfold isLeap.
  rewrite orb_true_iff, andb_true_iff, negb_true_iff, !Z.eqb_eq, Z.eqb_neq.
  reflexivity.
Qed.

(** The twelve month lengths are the Gregorian ones: 31 days except for
    April, June, September and November (30) and February, which has 29
    days exactly in the years divisible by 4 and not by 100, or divisible
    by 400, and 28 otherwise; the months of a year add up to 366 days in
    those years and to 365 in the others. *)
Theorem daysInMonth_gregorian (y : Z) :
  map (daysInMonth y) [1; 2; 3; 4; 5; 6; 7; 8; 9; 10; 11; 12]
  = [31; daysInMonth y 2; 31; 30; 31; 30; 31; 31; 30; 31; 30; 31] /\
  (daysInMonth y 2 = 29 <->
   (y mod 4 = 0 /\ y mod 100 <> 0) \/ y mod 400 = 0) /\
  (daysInMonth y 2 = 28 <->
   ~ ((y mod 4 = 0 /\ y mod 100 <> 0) \/ y mod 400 = 0)) /\
  fold_right Z.add 0
    (map (daysInMonth y) [1; 2; 3; 4; 5; 6; 7; 8; 9; 10; 11; 12])
  = if isLeap y then 366 else 365.
Proof.
  assert (F : daysInMonth y 2 = if isLeap y then 29 else 28)
    by reflexivity.
  split; [reflexivity|].
  rewrite <- isLeap_rule.
  split; [|split].
  - rewrite F. destruct (isLeap y); intuition (try discriminate).
  - rewrite F. destruct (isLeap y); intuition (try discriminate).
  - cbn [map fold_right]. rewrite F.
    change (daysInMonth y 1) with 31. change (daysInMonth y 3) with 31.
    change (daysInMonth y 4) with 30. change (daysInMonth y 5) with 31.
    change (daysInMonth y 6) with 30. change (daysInMonth y 7) with 31.
    change (daysInMonth y 8) with 31. change (daysInMonth y 9) with 30.
    change (daysInMonth y 10) with 31. change (daysInMonth y 11) with 30.
    change (daysInMonth y 12) with 31.
    destruct (isLeap y); reflexivity.
Qed.

(** ** What a call leaves pending *)

(** The part of the elapsed time a call does not turn into seconds. *)
Lemma pending_after_call (currentMillis : Z) (s : State) :
  u32 (currentMillis
       - lastTimeUpdateMillis (updateInternalTime currentMillis s))
  = u32 (currentMillis - lastTimeUpdateMillis s) mod 1000.
Proof.
  unfold updateInternalTime. cbv zeta.
  pose proof (u32_range (currentMillis - lastTimeUpdateMillis s)) as R.
  change (2 ^ 32) with 4294967296 in R.
  destruct (Z.leb_spec 1000 (u32 (currentMillis - lastTimeUpdateMillis s)))
    as [G|L].
  - cbn [lastTimeUpdateMillis set_currentDateTime set_lastTimeUpdateMillis].
    set (diff := u32 (currentMillis - lastTimeUpdateMillis s)) in *.
    assert (E : u32 (currentMillis
                     - u32 (lastTimeUpdateMillis s
                            + u32 (diff / 1000 * 1000)))
                = u32 (diff - diff / 1000 * 1000)).
    { unfold u32 at 1 2 3 4. rewrite Zplus_mod_idemp_r.
      rewrite Zminus_mod_idemp_r.
      replace (currentMillis - (lastTimeUpdateMillis s + diff / 1000 * 1000))
        with (currentMillis - lastTimeUpdateMillis s - diff / 1000 * 1000)
        by ring.
      rewrite <- Zminus_mod_idemp_l. reflexivity. }
    rewrite E. rewrite u32_small
      by (change (2 ^ 32) with 4294967296; euclid).
    euclid.
  - symmetry. apply Z.mod_small. lia.
Qed.

(** After a call, less than one second of elapsed time is left pending,
    and it is exactly the sub-second part of what was pending before: the
    whole seconds are taken off the counter difference and the remainder is
    kept for the next call.  This holds for every counter value and every
    reference, across the wrap of the 32-bit counter too. *)
Theorem updateInternalTime_keeps_remainder (currentMillis : Z) (s : State) :
  let s' := updateInternalTime currentMillis s in
  u32 (currentMillis - lastTimeUpdateMillis s')
  = u32 (currentMillis - lastTimeUpdateMillis s) mod 1000 /\
  0 <= u32 (currentMillis - lastTimeUpdateMillis s') < 1000.
Proof.
  cbv zeta. rewrite pending_after_call. split; [reflexivity|].
  apply Z.mod_pos_bound. reflexivity.
Qed.

(** Calling [updateInternalTime] again at the same counter value changes
    nothing: two tasks that fire in the same millisecond do not count the
    elapsed seconds twice. *)
Theorem updateInternalTime_idempotent (currentMillis : Z) (s : State) :
  updateInternalTime currentMillis (updateInternalTime currentMillis s)
  = updateInternalTime currentMillis s.
Proof.
  pose proof (pending_after_call currentMillis s) as P.
  remember (updateInternalTime currentMillis s) as s1 eqn:E.
  unfold updateInternalTime at 1. cbv zeta. rewrite P.
  destruct (Z.leb_spec 1000
              (u32 (currentMillis - lastTimeUpdateMillis s) mod 1000));
    [euclid | reflexivity].
Qed.

(** ** A date that is only range-checked *)

Lemma monthCarry_month_day (d : DateTime) :
  1 <= month d <= 12 -> 0 <= day d < 256 ->
  daysInMonth (year d) (month d) < day d ->
  1 <= month (monthCarry d) <= 12 /\
  day (monthCarry d) = day d - daysInMonth (year d) (month d).
Proof.
  intros Hm Hd L. pose proof (daysInMonth_bounds (year d) (month d)) as B.
  unfold monthCarry. cbv zeta. fields.
  rewrite (u8_small (month d + 1)) by lia.
  rewrite (u8_small (day d - daysInMonth (year d) (month d))) by lia.
  destruct (Z.ltb_spec 12 (month d + 1)); fields; lia.
Qed.

(** The month loop ends on a day of the month it names, for any day count
    that a byte can hold. *)
Lemma monthLoop_in_month (n : nat) : forall d : DateTime,
  1 <= month d <= 12 -> 1 <= day d < 256 ->
  day d <= 28 * Z.of_nat n ->
  1 <= month (monthLoop n d) <= 12 /\
  1 <= day (monthLoop n d)
    <= daysInMonth (year (monthLoop n d)) (month (monthLoop n d)) /\
  hour (monthLoop n d) = hour d /\ minute (monthLoop n d) = minute d /\
  second (monthLoop n d) = second d /\
  dayOfWeek (monthLoop n d) = dayOfWeek d.
Proof.
  induction n as [|n IH]; intros d Hm Hd Hn; [lia|].
  cbn [monthLoop].
  destruct (Z.ltb_spec (daysInMonth (year d) (month d)) (day d)) as [L|L].
  - destruct (monthCarry_month_day d Hm ltac:(lia) L) as (Cm & Cd).
    pose proof (daysInMonth_bounds (year d) (month d)) as B.
    pose proof (monthCarry_time d) as (Th & Tmi & Ts & Tw).
    destruct (IH (monthCarry d) Cm ltac:(lia) ltac:(lia))
      as (I1 & I2 & I3 & I4 & I5 & I6).
    rewrite I3, I4, I5, I6. repeat split; try tauto; try lia.
  - repeat split; try reflexivity; lia.
Qed.

(** The cascade on a clock that passed the range checks of a write. *)
Lemma rollover_inRange (d : DateTime) :
  0 <= second d < 256 ->
  1 <= month d <= 12 -> 1 <= day d <= 31 ->
  0 <= hour d < 24 -> 0 <= minute d < 60 -> 1 <= dayOfWeek d <= 7 ->
  inRange (rollover d) /\
  (atRest (rollover d) \/
   (year (rollover d) = year d /\ month (rollover d) = month d /\
    day (rollover d) = day d)).
Proof.
  destruct d as [y m dd h mi s w].
  cbn [second month day hour minute dayOfWeek year].
  intros Hs Hm Hd Hh Hmi Hw.
  rewrite rollover_mk.
  destruct (Z.leb_spec 60 s) as [S60|S60];
    [|split; [unfold inRange; cbn; lia | right; cbn; auto]].
  rewrite (u8_small (mi + s / 60)) by euclid.
  rewrite (u8_small (s mod 60)) by euclid.
  destruct (Z.leb_spec 60 (mi + s / 60)) as [M60|M60];
    [|split; [unfold inRange; cbn; repeat split; euclid
             | right; cbn; auto]].
  assert (Hq : (mi + s / 60) / 60 = 1) by euclid.
  rewrite Hq.
  rewrite (u8_small (h + 1)) by lia.
  rewrite (u8_small ((mi + s / 60) mod 60)) by euclid.
  destruct (Z.leb_spec 24 (h + 1)) as [H24|H24];
    [|split; [unfold inRange; cbn; repeat split; euclid
             | right; cbn; auto]].
  assert (Hh23 : h = 23) by lia. subst h.
  change ((23 + 1) / 24) with 1. change ((23 + 1) mod 24) with 0.
  change (u8 1) with 1. change (u8 0) with 0.
  rewrite (u8_small (dd + 1)) by lia.
  replace (w - 1 + 1) with w by ring.
  rewrite Z.rem_mod_nonneg by lia.
  rewrite (u8_small (w mod 7 + 1)) by euclid.
  match goal with
  | |- context [monthLoop monthLoopFuel ?x] =>
      pose proof (monthLoop_in_month monthLoopFuel x) as P
  end.
  cbn [year month day hour minute second dayOfWeek] in P.
  destruct P as (P1 & P2 & P3 & P4 & P5 & P6);
    [lia | lia | unfold monthLoopFuel; lia |].
  pose proof (daysInMonth_bounds
                (year (monthLoop monthLoopFuel
                         (mkDateTime y m (dd + 1) 0 ((mi + s / 60) mod 60)
                                     (s mod 60) (w mod 7 + 1))))
                (month (monthLoop monthLoopFuel
                         (mkDateTime y m (dd + 1) 0 ((mi + s / 60) mod 60)
                                     (s mod 60) (w mod 7 + 1))))) as B.
  assert (R : atRest (monthLoop monthLoopFuel
                        (mkDateTime y m (dd + 1) 0 ((mi + s / 60) mod 60)
                                    (s mod 60) (w mod 7 + 1)))).
  { unfold atRest. rewrite P3, P4, P5, P6.
    repeat split; try lia; euclid. }
  split; [|left; exact R].
  destruct R as (R1 & R2 & R3 & R4 & R5 & R6).
  unfold inRange. repeat split; lia.
Qed.

Lemma updateInternalTime_inRange (currentMillis : Z) (s : State) :
  fits_layout (currentDateTime s) -> inRange (currentDateTime s) ->
  let d := currentDateTime s in
  let d' := currentDateTime (updateInternalTime currentMillis s) in
  inRange d' /\
  (atRest d' \/ (year d' = year d /\ month d' = month d /\ day d' = day d)).
Proof.
  intros F R. pose proof R as (Hm & Hd & Hh & Hmi & Hs & Hw).
  pose proof F as (_ & _ & _ & Fh & Fmi & Fs & _).
  cbv zeta. unfold updateInternalTime. cbv zeta.
  destruct (1000 <=? u32 (currentMillis - lastTimeUpdateMillis s));
    [|split; [exact R | right; auto]].
  cbn [currentDateTime set_currentDateTime set_lastTimeUpdateMillis].
  match goal with
  | |- context [rollover ?x] => pose proof (rollover_inRange x) as P
  end.
  pose proof (u8_range
                (u32 (second (currentDateTime s)
                      + u32 (currentMillis - lastTimeUpdateMillis s) / 1000)))
    as U.
  apply P; fields; lia.
Qed.

(** A write is only range-checked, so the clock may hold a date such as
    April 31st.  From any clock that passed those checks, a call keeps the
    checked ranges, and it either leaves the date (year, month, day) as it
    is or leaves a day that exists in its month: when midnight is passed the
    month loop folds the excess days into the following month. *)
Theorem updateInternalTime_repairs_date (currentMillis : Z) (s : State) :
  fits_layout (currentDateTime s) -> inRange (currentDateTime s) ->
  let d := currentDateTime s in
  let d' := currentDateTime (updateInternalTime currentMillis s) in
  inRange d' /\
  (atRest d' \/ (year d' = year d /\ month d' = month d /\ day d' = day d)).
Proof. exact (updateInternalTime_inRange currentMillis s). Qed.

(** February 31st 2023, 23:59:59, becomes March 4th at midnight. *)
Lemma updateInternalTime_repairs_date_witness :
  inRange (mkDateTime 2023 2 31 23 59 59 5) /\
  ~ atRest (mkDateTime 2023 2 31 23 59 59 5) /\
  currentDateTime
    (updateInternalTime 1000
       (mkState (mkDateTime 2023 2 31 23 59 59 5) 0 false
                (mkBLEDevice "c0:ff:ee") false true))
  = mkDateTime 2023 3 4 0 0 0 6 /\
  atRest (mkDateTime 2023 3 4 0 0 0 6).
Proof.
  assert (R : inRange (mkDateTime 2023 2 31 23 59 59 5))
    by (unfold inRange; cbn; lia).
  split; [exact R|].
  split; [unfold atRest; cbn; lia|].
  split; [reflexivity|].
  destruct (updateInternalTime_repairs_date 1000
              (mkState (mkDateTime 2023 2 31 23 59 59 5) 0 false
                       (mkBLEDevice "c0:ff:ee") false true))
    as (_ & [A|(_ & E & _)]).
  - unfold fits_layout. cbn. lia.
  - exact R.
  - exact A.
  - vm_compute in E. discriminate E.
Defined.

(** ** The callbacks, one by one *)

Lemma blinkLedCallback_run (s : State) :
  blinkLedCallback s
  = (tt, set_ledState (negb (ledState s)) s,
     [DigitalWrite (negb (ledState s))]).
Proof. reflexivity. Qed.

Lemma updateInternalTimeCallback_run (now : Z) (s : State) :
  updateInternalTimeCallback now s = (tt, updateInternalTime now s, []).
Proof. reflexivity. Qed.

Lemma updateBleDataCallback_run (now : Z) (writeOk : bool) (s : State) :
  updateBleDataCallback now writeOk s
  = if centralConnected s then
      (tt, updateInternalTime now s,
       WriteValue currentTimeChar
         (timeData (currentDateTime (updateInternalTime now s)))
       :: (if writeOk then []
           else [SerialPrint "Error writing Current Time characteristic!"]))
    else (tt, s, []).
Proof.
  unfold updateBleDataCallback, bind, get.
  destruct (centralConnected s); [|reflexivity].
  unfold modify, writeCurrentTime, bind, get, emit.
  destruct writeOk; reflexivity.
Qed.

Lemma printSystemTimeCallback_run (now : Z) (s : State) :
  printSystemTimeCallback now s
  = (tt, updateInternalTime now s,
     [SerialPrintTime "System Time: "
        (currentDateTime (updateInternalTime now s))]).
Proof. reflexivity. Qed.

Lemma finalState_triple {A : Type} (a : A) (s : State) (t : list Effect) :
  finalState (a, s, t) = s.
Proof. reflexivity. Qed.

Lemma trace_triple {A : Type} (a : A) (s : State) (t : list Effect) :
  trace (a, s, t) = t.
Proof. reflexivity. Qed.

Lemma run_cons (e : Event) (es : list Event) (s : State) :
  run (e :: es) s
  = (tt, finalState (run es (finalState (handle e s))),
     trace (handle e s) ++ trace (run es (finalState (handle e s)))).
Proof.
  unfold run. cbn [forEach]. unfold bind, finalState, trace.
  destruct (handle e s) as [[[] s1] t1]. cbn [fst snd].
  destruct (forEach es handle s1) as [[[] s2] t2]. reflexivity.
Qed.

(** The dump loop: what it prints and what it leaves alone. *)
Lemma printRawData_trace (data : list Z) (len : nat) (s : State) :
  hexPrinted (trace (printRawData data len s))
  = map (byteAt data) (seq 0 len) /\
  lastDigitalWrite (trace (printRawData data len s)) = None.
Proof.
  unfold printRawData.
  set (body := fun i : nat => _).
  assert (Hloop : forall n k s0,
             forEach (seq k n) body s0
             = (tt, s0, snd (forEach (seq k n) body s0)) /\
             hexPrinted (snd (forEach (seq k n) body s0))
             = map (byteAt data) (seq k n) /\
             lastDigitalWrite (snd (forEach (seq k n) body s0)) = None).
  { induction n as [|n IH]; intros k s0; [repeat split|].
    cbn [seq forEach map]. unfold bind.
    assert (B : body k s0
                = (tt, s0,
                   [SerialPrint "0x"]
                   ++ (if byteAt data k <? 16 then [SerialPrint "0"] else [])
                   ++ [SerialPrintHex (byteAt data k)]
                   ++ (if Z.of_nat k <? Z.of_nat len - 1
                       then [SerialPrint ", "] else []))).
    { subst body. cbv beta.
      destruct (byteAt data k <? 16);
        destruct (Z.of_nat k <? Z.of_nat len - 1); reflexivity. }
    rewrite B.
    destruct (IH (S k) s0) as (I1 & I2 & I3).
    rewrite I1. cbn [snd].
    destruct (byteAt data k <? 16);
      destruct (Z.of_nat k <? Z.of_nat len - 1);
      cbn [app hexPrinted lastDigitalWrite]; rewrite I2, I3;
      repeat split. }
  destruct (Hloop len 0%nat s) as (I1 & I2 & I3).
  unfold bind, emit, trace. rewrite I1. cbn [snd app hexPrinted].
  split.
  - clear I1 I3. revert I2.
    generalize (snd (forEach (seq 0 len) body s)) as t.
    generalize (map (byteAt data) (seq 0 len)) as l.
    intros l t E. rewrite <- E. clear E.
    induction t as [|e t IH]; [reflexivity|].
    cbn [app hexPrinted]. destruct e; cbn; rewrite ?IH; reflexivity.
  - clear I1 I2. revert I3.
    generalize (snd (forEach (seq 0 len) body s)) as t.
    intros t E.
    cbn [lastDigitalWrite].
    assert (A : lastDigitalWrite (t ++ [SerialPrint "]"]) = None).
    { induction t as [|e t IH]; [reflexivity|].
      cbn [app lastDigitalWrite] in *.
      destruct (lastDigitalWrite t) eqn:L; [discriminate E|].
      rewrite IH by reflexivity. exact E. }
    rewrite A. reflexivity.
Qed.

Lemma byteAt_seq (data : list Z) :
  map (byteAt data) (seq 0 (List.length data)) = data.
Proof.
  induction data as [|b data IH]; [reflexivity|].
  cbn [List.length seq map]. unfold byteAt at 1. cbn [nth]. f_equal.
  rewrite <- seq_shift, map_map. exact IH.
Qed.

Lemma hexPrinted_app (t1 t2 : list Effect) :
  hexPrinted (t1 ++ t2) = hexPrinted t1 ++ hexPrinted t2.
Proof.
  induction t1 as [|e t1 IH]; [reflexivity|].
  destruct e; cbn [app hexPrinted]; rewrite IH; reflexivity.
Qed.

Lemma lastDigitalWrite_app (t1 t2 : list Effect) :
  lastDigitalWrite (t1 ++ t2)
  = match lastDigitalWrite t2 with
    | Some level => Some level
    | None => lastDigitalWrite t1
    end.
Proof.
  induction t1 as [|e t1 IH]; cbn [app lastDigitalWrite].
  - destruct (lastDigitalWrite t2); reflexivity.
  - rewrite IH. destruct (lastDigitalWrite t2); reflexivity.
Qed.

Lemma byteAt_range (data : list Z) (i : nat) :
  Forall (fun b => 0 <= b < 256) data -> 0 <= byteAt data i < 256.
Proof.
  intros H. unfold byteAt. revert i.
  induction H as [|b data Hb _ IH]; intros [|i]; cbn [nth]; try lia.
  apply IH.
Qed.

Lemma parseCurrentTime_fits (data : list Z) :
  Forall (fun b => 0 <= b < 256) data -> fits_layout (parseCurrentTime data).
Proof.
  intros H. unfold fits_layout, parseCurrentTime. fields.
  repeat split; try apply u16_range; apply (byteAt_range data _ H).
Qed.

(** Splits on the callback behind an event and on the branch it takes. *)
Ltac handle_cases e s :=
  destruct e as [writeOk central | advertiseOk central | now central value
                | | now | now writeOk | now];
  cbn [handle];
  [ destruct (centralConnected s) eqn:Conn;
    [ rewrite (blePeripheralConnectHandler_duplicate writeOk central s Conn)
    | rewrite (blePeripheralConnectHandler_fresh writeOk central s Conn) ]
  | destruct (centralConnected s) eqn:Conn;
    [ rewrite (blePeripheralDisconnectHandler_live advertiseOk central s Conn)
    | rewrite (blePeripheralDisconnectHandler_stale advertiseOk central s
                 Conn) ]
  | destruct (Nat.eq_dec (List.length value) 10) as [Len|Len];
    [ destruct (validTime (parseCurrentTime value)) eqn:Valid;
      [ rewrite (currentTimeWrittenHandler_valid now central value s Len
                   Valid)
      | rewrite (currentTimeWrittenHandler_invalid now central value s Len
                   Valid) ]
    | rewrite (currentTimeWrittenHandler_wrong_length now central value s
                 Len) ]
  | rewrite blinkLedCallback_run
  | rewrite updateInternalTimeCallback_run
  | rewrite updateBleDataCallback_run; destruct (centralConnected s) eqn:Conn
  | rewrite printSystemTimeCallback_run ];
  unfold finalState, trace; cbn [fst snd].

(** ** Invariants of the running sketch *)

Lemma handle_clock_ranges (e : Event) (s : State) :
  clockFits s -> inRange (currentDateTime s) -> eventFits e ->
  clockFits (finalState (handle e s)) /\
  inRange (currentDateTime (finalState (handle e s))).
Proof.
  intros C R E. pose proof C as (F & L).
  assert (U : forall now,
             clockFits (updateInternalTime now s) /\
             inRange (currentDateTime (updateInternalTime now s))).
  { intros now. split; [apply updateInternalTime_fits, C|].
    apply (updateInternalTime_inRange now s F R). }
  handle_cases e s; try (split; [split; assumption | assumption]);
    try apply U.
  cbn [eventFits] in E. destruct E as (En & Ev).
  split; [split|]; cbn [currentDateTime lastTimeUpdateMillis].
  - apply parseCurrentTime_fits, Ev.
  - exact En.
  - apply validTime_inRange, Valid.
Qed.

(** Whatever callbacks run, in whatever order, and whatever is written to
    the Current Time characteristic, the clock always passes the range
    checks of a write (month 1..12, day 1..31, hour <= 23, minute <= 59,
    second <= 59, day of week 1..7) and its fields and reference stay
    within their widths. *)
Theorem run_keeps_validated_ranges (es : list Event) : forall s : State,
  clockFits s -> inRange (currentDateTime s) -> Forall eventFits es ->
  clockFits (finalState (run es s)) /\
  inRange (currentDateTime (finalState (run es s))).
Proof.
  induction es as [|e es IH]; intros s C R H; [split; assumption|].
  inversion H as [|? ? He Hes]; subst.
  rewrite run_cons. unfold finalState at 1 3. cbn [fst snd].
  destruct (handle_clock_ranges e s C R He) as (C1 & R1).
  apply IH; assumption.
Qed.

Lemma run_keeps_validated_ranges_witness :
  inRange
    (currentDateTime
       (finalState
          (run [TaskUpdateTime 1000;
                BLEConnected true (mkBLEDevice "c0:ff:ee");
                BLEWritten 2500 (mkBLEDevice "c0:ff:ee")
                           [231; 7; 2; 31; 23; 59; 58; 5; 0; 0];
                TaskUpdateBleData 4700 true;
                BLEDisconnected false (mkBLEDevice "c0:ff:ee")]
               initialState))).
Proof.
  apply (run_keeps_validated_ranges
           [TaskUpdateTime 1000;
            BLEConnected true (mkBLEDevice "c0:ff:ee");
            BLEWritten 2500 (mkBLEDevice "c0:ff:ee")
                       [231; 7; 2; 31; 23; 59; 58; 5; 0; 0];
            TaskUpdateBleData 4700 true;
            BLEDisconnected false (mkBLEDevice "c0:ff:ee")] initialState).
  - unfold clockFits, fits_layout. cbn. lia.
  - unfold inRange. cbn. lia.
  - repeat constructor; cbn; lia.
Defined.

Lemma handle_link_blink (e : Event) (s : State) :
  centralConnected s = negb (tLedBlinkEnabled s) ->
  centralConnected (finalState (handle e s))
  = negb (tLedBlinkEnabled (finalState (handle e s))).
Proof.
  intros I.
  assert (U : forall now,
             centralConnected (updateInternalTime now s)
             = negb (tLedBlinkEnabled (updateInternalTime now s))).
  { intros now. unfold updateInternalTime. cbv zeta.
    destruct (1000 <=? u32 (now - lastTimeUpdateMillis s)); exact I. }
  handle_cases e s; cbn; try reflexivity; try exact I; try apply U.
  rewrite <- I. exact Conn.
Qed.

(** The blink task is enabled exactly while no central is connected: this
    holds when the sketch starts and every callback keeps it, so it holds
    after any sequence of callbacks, duplicate and stray link events
    included. *)
Theorem run_couples_link_and_blink (es : list Event) : forall s : State,
  centralConnected s = negb (tLedBlinkEnabled s) ->
  centralConnected (finalState (run es s))
  = negb (tLedBlinkEnabled (finalState (run es s))).
Proof.
  induction es as [|e es IH]; intros s I; [exact I|].
  rewrite run_cons. unfold finalState at 1 3. cbn [fst snd].
  apply IH, handle_link_blink, I.
Qed.

Lemma run_couples_link_and_blink_witness :
  tLedBlinkEnabled
    (finalState
       (run [BLEDisconnected true (mkBLEDevice "c0:ff:ee");
             BLEConnected true (mkBLEDevice "c0:ff:ee");
             BLEConnected true (mkBLEDevice "de:ad:01");
             TaskUpdateBleData 1500 true]
            initialState))
  = false.
Proof.
  pose proof (run_couples_link_and_blink
                [BLEDisconnected true (mkBLEDevice "c0:ff:ee");
                 BLEConnected true (mkBLEDevice "c0:ff:ee");
                 BLEConnected true (mkBLEDevice "de:ad:01");
                 TaskUpdateBleData 1500 true]
                initialState eq_refl) as H.
  apply negb_true_iff. rewrite <- H. reflexivity.
Defined.

Lemma handle_led_on (e : Event) (s : State) :
  centralConnected s = negb (tLedBlinkEnabled s) ->
  (centralConnected s = true -> ledState s = true) ->
  enabledIn s e ->
  centralConnected (finalState (handle e s)) = true ->
  ledState (finalState (handle e s)) = true.
Proof.
  intros I L En.
  assert (U : forall now,
             centralConnected (updateInternalTime now s) = true ->
             ledState (updateInternalTime now s) = true).
  { intros now. unfold updateInternalTime. cbv zeta.
    destruct (1000 <=? u32 (now - lastTimeUpdateMillis s)); exact L. }
  handle_cases e s; cbn; try reflexivity; try exact L; try apply U;
    try discriminate; try (intros C; congruence).
  cbn [enabledIn] in En. rewrite En in I. cbn in I.
  intros C. rewrite C in I. discriminate I.
Qed.

(** While a central is connected the LED is on: the connect handler turns
    it on and stops the blink task, and the scheduler does not run the blink
    callback of a disabled task.  This holds after any sequence of callbacks
    the scheduler can deliver. *)
Theorem run_keeps_led_on_while_connected (es : list Event) :
  forall s : State,
  centralConnected s = negb (tLedBlinkEnabled s) ->
  (centralConnected s = true -> ledState s = true) ->
  deliverable s es ->
  centralConnected (finalState (run es s)) = true ->
  ledState (finalState (run es s)) = true.
Proof.
  induction es as [|e es IH]; intros s I L D; [exact L|].
  destruct D as (En & D).
  rewrite run_cons. unfold finalState at 1 3. cbn [fst snd].
  apply IH.
  - apply handle_link_blink, I.
  - apply handle_led_on; assumption.
  - exact D.
Qed.

Lemma run_keeps_led_on_while_connected_witness :
  ledState
    (finalState
       (run [TaskLedBlink; TaskLedBlink; TaskLedBlink;
             BLEConnected true (mkBLEDevice "c0:ff:ee");
             TaskUpdateBleData 1500 true;
             BLEWritten 2500 (mkBLEDevice "c0:ff:ee")
                        [232; 7; 6; 15; 12; 30; 0; 6; 0; 0]]
            initialState))
  = true.
Proof.
  apply (run_keeps_led_on_while_connected
           [TaskLedBlink; TaskLedBlink; TaskLedBlink;
            BLEConnected true (mkBLEDevice "c0:ff:ee");
            TaskUpdateBleData 1500 true;
            BLEWritten 2500 (mkBLEDevice "c0:ff:ee")
                       [232; 7; 6; 15; 12; 30; 0; 6; 0; 0]]
           initialState).
  - reflexivity.
  - cbn. discriminate.
  - cbn. repeat split; reflexivity.
  - reflexivity.
Defined.

Lemma handle_led_mirror (e : Event) (s : State) :
  ledState (finalState (handle e s))
  = match lastDigitalWrite (trace (handle e s)) with
    | Some level => level
    | None => ledState s
    end.
Proof.
  assert (U : forall now, ledState (updateInternalTime now s) = ledState s).
  { intros now. unfold updateInternalTime. cbv zeta.
    destruct (1000 <=? u32 (now - lastTimeUpdateMillis s)); reflexivity. }
  pose proof (fun data len => proj2 (printRawData_trace data len s)) as PR.
  unfold trace in PR.
  handle_cases e s; cbn [ledState]; rewrite ?U;
    rewrite ?lastDigitalWrite_app; rewrite ?PR;
    try reflexivity;
    repeat match goal with
           | |- context [if ?b then _ else _] => destruct b
           end; reflexivity.
Qed.

(** [ledState] is always the level last sent to the LED pin: over any
    sequence of callbacks, if the pin was written at all then [ledState]
    ends as the last level written, and otherwise [ledState] ends as it
    began. *)
Theorem run_led_mirrors_pin (es : list Event) : forall s : State,
  ledState (finalState (run es s))
  = match lastDigitalWrite (trace (run es s)) with
    | Some level => level
    | None => ledState s
    end.
Proof.
  induction es as [|e es IH]; intros s; [reflexivity|].
  rewrite run_cons, finalState_triple, trace_triple.
  rewrite lastDigitalWrite_app, IH.
  destruct (lastDigitalWrite (trace (run es (finalState (handle e s)))));
    [reflexivity|].
  apply handle_led_mirror.
Qed.

(** ** What each callback leaves alone *)

(** The link handlers and the blink callback never touch the clock; the
    written handler and the three time-keeping callbacks never touch the
    link state, the remembered peer, the LED state or the blink task, and
    never send an advertising command. *)
Theorem callbacks_keep_to_their_globals (e : Event) (s : State) :
  let s' := finalState (handle e s) in
  match e with
  | BLEConnected _ _ | BLEDisconnected _ _ | TaskLedBlink =>
      currentDateTime s' = currentDateTime s /\
      lastTimeUpdateMillis s' = lastTimeUpdateMillis s
  | _ =>
      centralConnected s' = centralConnected s /\
      connectedCentral s' = connectedCentral s /\
      ledState s' = ledState s /\
      tLedBlinkEnabled s' = tLedBlinkEnabled s
  end.
Proof.
  assert (U : forall now s0,
             centralConnected (updateInternalTime now s0)
             = centralConnected s0
             /\ connectedCentral (updateInternalTime now s0)
                = connectedCentral s0
             /\ ledState (updateInternalTime now s0) = ledState s0
             /\ tLedBlinkEnabled (updateInternalTime now s0)
                = tLedBlinkEnabled s0).
  { intros now s0. unfold updateInternalTime. cbv zeta.
    destruct (1000 <=? u32 (now - lastTimeUpdateMillis s0));
      repeat split; reflexivity. }
  cbv zeta.
  handle_cases e s; cbn;
    try match goal with
        | |- context [updateInternalTime ?n s] =>
            destruct (U n s) as (U1 & U2 & U3 & U4)
        end;
    repeat split; congruence.
Qed.

(** ** The written handler's dump *)

(** Whatever is written to the characteristic, of whatever length, and
    whether it is accepted or not, the handler prints in hexadecimal exactly
    the bytes received, each once and in order. *)
Theorem written_handler_dumps_received_bytes
    (now : Z) (central : BLEDevice) (value : list Z) (s : State) :
  hexPrinted (trace (currentTimeWrittenHandler now central value s)) = value.
Proof.
  pose proof (fun len => proj1 (printRawData_trace value len s)) as PR.
  destruct (Nat.eq_dec (List.length value) 10) as [Len|Len].
  - pose proof (byteAt_seq value) as B. rewrite Len in B.
    destruct (validTime (parseCurrentTime value)) eqn:Valid.
    + rewrite (currentTimeWrittenHandler_valid now central value s Len Valid).
      rewrite trace_triple, !hexPrinted_app, PR, B. cbn.
      apply app_nil_r.
    + rewrite (currentTimeWrittenHandler_invalid now central value s Len
                 Valid).
      rewrite trace_triple, !hexPrinted_app, PR, B. cbn.
      apply app_nil_r.
  - rewrite (currentTimeWrittenHandler_wrong_length now central value s Len).
    rewrite trace_triple, !hexPrinted_app, PR, byteAt_seq. reflexivity.
Qed.

(** ** The periodic push *)

Lemma parse_timeData (d : DateTime) :
  fits_layout d -> parseCurrentTime (timeData d) = d.
Proof.
  intros (Hy & _).
  destruct (timeData_year_bytes (year d) Hy) as (E0 & E1).
  destruct d as [y m dd h mi s w]. cbn [year] in *.
  unfold parseCurrentTime, timeData, byteAt.
  cbn [nth year month day hour minute second dayOfWeek].
  rewrite E0, E1.
  rewrite lor_shiftl_8 by euclid.
  rewrite u16_small by euclid.
  f_equal. euclid.
Qed.

(** While no central is connected the push callback does nothing at all:
    no write, and the clock is not even advanced.  While one is connected it
    advances the clock first and then writes the Current Time characteristic
    exactly once, with ten bytes that parse back to the clock as it is after
    the call: the value pushed is never stale. *)
Theorem updateBleDataCallback_pushes_fresh_time
    (now : Z) (writeOk : bool) (s : State) :
  clockFits s ->
  let r := updateBleDataCallback now writeOk s in
  (centralConnected s = false -> r = (tt, s, [])) /\
  (centralConnected s = true ->
   finalState r = updateInternalTime now s /\
   exists v : list Z,
     valuesWritten currentTimeChar (trace r) = [v] /\
     List.length v = 10%nat /\
     parseCurrentTime v = currentDateTime (finalState r)).
Proof.
  intros C r. subst r. rewrite updateBleDataCallback_run.
  split; intros Conn; rewrite Conn; [reflexivity|].
  split; [reflexivity|].
  exists (timeData (currentDateTime (updateInternalTime now s))).
  rewrite trace_triple, finalState_triple.
  split; [destruct writeOk; reflexivity|].
  split; [reflexivity|].
  apply parse_timeData.
  apply (updateInternalTime_fits now s C).
Qed.

Lemma updateBleDataCallback_pushes_fresh_time_witness :
  updateBleDataCallback 61000 true initialState = (tt, initialState, []).
Proof.
  destruct (updateBleDataCallback_pushes_fresh_time 61000 true initialState)
    as (H & _).
  - unfold clockFits, fits_layout. cbn. lia.
  - apply H. reflexivity.
Defined.

(** ** Connecting and disconnecting *)

(** A connection followed by a disconnection brings the globals back to
    where they were, with the blink task running again and the LED off,
    except that the peer of the closed connection is still remembered in
    [connectedCentral]: the disconnect handler does not clear it. *)
Theorem connect_then_disconnect
    (writeOk advertiseOk : bool) (c1 c2 : BLEDevice) (s : State) :
  centralConnected s = false -> tLedBlinkEnabled s = true ->
  finalState
    (blePeripheralDisconnectHandler advertiseOk c2
       (finalState (blePeripheralConnectHandler writeOk c1 s)))
  = set_connectedCentral c1 (set_ledState false s).
Proof.
  intros Conn En.
  rewrite (blePeripheralConnectHandler_fresh writeOk c1 s Conn).
  rewrite finalState_triple.
  rewrite blePeripheralDisconnectHandler_live by reflexivity.
  rewrite finalState_triple.
  destruct s as [d l c p led en]. cbn in *. subst. reflexivity.
Qed.

Lemma connect_then_disconnect_witness :
  connectedCentral
    (finalState
       (blePeripheralDisconnectHandler true (mkBLEDevice "c0:ff:ee")
          (finalState
             (blePeripheralConnectHandler true (mkBLEDevice "c0:ff:ee")
                initialState))))
  = mkBLEDevice "c0:ff:ee".
Proof.
  rewrite (connect_then_disconnect true true (mkBLEDevice "c0:ff:ee")
             (mkBLEDevice "c0:ff:ee") initialState eq_refl eq_refl).
  reflexivity.
Defined.

(** When a live link is closed the handler stops advertising once and then
    starts it once, in that order, and sends no other advertising command;
    a stray disconnect sends none.  Whether [BLE.advertise()] succeeds or
    fails, the globals end the same: a failed restart is logged and not
    retried. *)
Theorem disconnect_restarts_advertising_once
    (advertiseOk : bool) (central : BLEDevice) (s : State) :
  advertising (trace (blePeripheralDisconnectHandler advertiseOk central s))
  = (if centralConnected s then [StopAdvertise; Advertise] else []) /\
  finalState (blePeripheralDisconnectHandler true central s)
  = finalState (blePeripheralDisconnectHandler false central s) /\
  (centralConnected s = true ->
   printed "Failed to restart advertising!"
     (trace (blePeripheralDisconnectHandler false central s)) = true).
Proof.
  destruct (centralConnected s) eqn:Conn.
  - rewrite !(blePeripheralDisconnectHandler_live _ central s Conn).
    rewrite !trace_triple, !finalState_triple.
    split; [destruct advertiseOk; reflexivity|].
    split; [reflexivity|]. intros _.
    unfold printed. cbn [existsb]. rewrite !orb_true_iff.
    do 9 right. left. reflexivity.
  - rewrite !(blePeripheralDisconnectHandler_stale _ central s Conn).
    rewrite !trace_triple, !finalState_triple.
    split; [reflexivity|]. split; [reflexivity|]. discriminate.
Qed.

Lemma disconnect_restarts_advertising_once_witness :
  printed "Failed to restart advertising!"
    (trace (blePeripheralDisconnectHandler false (mkBLEDevice "c0:ff:ee")
              (set_centralConnected true initialState)))
  = true.
Proof.
  destruct (disconnect_restarts_advertising_once false
              (mkBLEDevice "c0:ff:ee")
              (set_centralConnected true initialState)) as (_ & _ & H).
  apply H. reflexivity.
Defined.

(** ** A write and the calls that follow *)

(** An accepted write erases the clock's past: the date-time and the
    reference after any later call are the same whatever the clock held,
    and however much elapsed time was pending, before the write; and a call
    less than a second after the write leaves the written time as it is. *)
Theorem write_resets_elapsed_time
    (now later k : Z) (central : BLEDevice) (value : list Z)
    (s1 s2 : State) :
  List.length value = 10%nat -> inRange (parseCurrentTime value) ->
  0 <= k < 1000 ->
  let after s :=
    updateInternalTime later
      (finalState (currentTimeWrittenHandler now central value s)) in
  let soon s :=
    updateInternalTime (u32 (now + k))
      (finalState (currentTimeWrittenHandler now central value s)) in
  currentDateTime (after s1) = currentDateTime (after s2) /\
  lastTimeUpdateMillis (after s1) = lastTimeUpdateMillis (after s2) /\
  currentDateTime (soon s1) = parseCurrentTime value.
Proof.
  intros Len R Hk after soon. subst after soon. cbv beta.
  apply validTime_inRange in R.
  rewrite !(currentTimeWrittenHandler_valid now central value _ Len R).
  rewrite !finalState_triple.
  split; [|split].
  - unfold updateInternalTime. cbn [lastTimeUpdateMillis currentDateTime].
    cbv zeta. destruct (1000 <=? u32 (later - now)); reflexivity.
  - unfold updateInternalTime. cbn [lastTimeUpdateMillis currentDateTime].
    cbv zeta. destruct (1000 <=? u32 (later - now)); reflexivity.
  - match goal with
    | |- context [updateInternalTime _ ?st] =>
        change now with (lastTimeUpdateMillis st) at 1;
        rewrite (updateInternalTime_idle k st Hk)
    end.
    reflexivity.
Qed.

Lemma write_resets_elapsed_time_witness :
  currentDateTime
    (updateInternalTime (u32 (7300 + 999))
       (finalState
          (currentTimeWrittenHandler 7300 (mkBLEDevice "c0:ff:ee")
             [232; 7; 6; 15; 12; 30; 59; 6; 0; 0] initialState)))
  = mkDateTime 2024 6 15 12 30 59 6.
Proof.
  destruct (write_resets_elapsed_time 7300 0 999 (mkBLEDevice "c0:ff:ee")
              [232; 7; 6; 15; 12; 30; 59; 6; 0; 0]
              initialState initialState) as (_ & _ & H).
  - reflexivity.
  - unfold inRange. cbn. lia.
  - lia.
  - exact H.
Defined.

(** ** The month loop always ends *)

(** For every day count a byte can hold, the month loop is left through its
    exit test within ten passes, on a day that is not past the end of the
    month it names; it never runs on. *)
Theorem monthLoop_exits_within_ten_passes (d : DateTime) (extra : nat) :
  0 <= day d < 256 ->
  let d' := monthLoop monthLoopFuel d in
  day d' <= daysInMonth (year d') (month d') /\
  monthLoop (monthLoopFuel + extra) d = d'.
Proof.
  intros Hd. cbv zeta. split.
  - apply monthLoop_fuel_enough, Hd.
  - apply monthLoop_more_fuel; [exact Hd|]. unfold monthLoopFuel. lia.
Qed.

Lemma monthLoop_exits_within_ten_passes_witness :
  monthLoop (monthLoopFuel + 5) (mkDateTime 2023 11 255 0 0 0 1)
  = mkDateTime 2024 7 12 0 0 0 1.
Proof.
  destruct (monthLoop_exits_within_ten_passes
              (mkDateTime 2023 11 255 0 0 0 1) 5) as (_ & E).
  - cbn. lia.
  - rewrite E. reflexivity.
Defined.

(** * The polling revision *)

(** ** Its clock *)

Lemma legacy_rollover_mk (y m dd h mi sc w : Z) :
  Legacy.rollover (mkDateTime y m dd h mi sc w)
  = if 60 <=? sc then
      if 60 <=? u8 (mi + sc / 60) then
        if 24 <=? u8 (h + u8 (mi + sc / 60) / 60) then
          let h1 := u8 (h + u8 (mi + sc / 60) / 60) in
          let d :=
            mkDateTime y m (u8 (dd + h1 / 24)) (u8 (h1 mod 24))
                       (u8 (u8 (mi + sc / 60) mod 60)) (u8 (sc mod 60))
                       (u8 (Z.rem (w - 1 + u8 (h1 mod 24) / 24) 7 + 1)) in
          if Legacy.monthDays d <? day d then
            if 12 <? u8 (m + 1)
            then set_year (u16 (y + 1)) (set_month 1 (set_day 1 d))
            else set_month (u8 (m + 1)) (set_day 1 d)
          else d
        else
          mkDateTime y m dd (u8 (h + u8 (mi + sc / 60) / 60))
                     (u8 (u8 (mi + sc / 60) mod 60)) (u8 (sc mod 60)) w
      else mkDateTime y m dd h (u8 (mi + sc / 60)) (u8 (sc mod 60)) w
    else mkDateTime y m dd h mi sc w.
Proof. reflexivity. Qed.

(** The inline month table is the table of [daysInMonth]. *)
Lemma legacy_monthDays (d : DateTime) :
  Legacy.monthDays d = daysInMonth (year d) (month d).
Proof.
  unfold Legacy.monthDays, daysInMonth, isLeap. cbv zeta.
  destruct ((month d =? 4) || (month d =? 6) || (month d =? 9)
            || (month d =? 11)); [reflexivity|].
  destruct (month d =? 2); [|reflexivity].
  destruct ((year d mod 4 =? 0) && negb (year d mod 100 =? 0)
            || (year d mod 400 =? 0)); reflexivity.
Qed.

Lemma legacy_rollover_dayOfWeek (d : DateTime) :
  1 <= dayOfWeek d <= 7 ->
  dayOfWeek (Legacy.rollover d) = dayOfWeek d.
Proof.
  destruct d as [y m dd h mi sc w]. cbn [dayOfWeek]. intros Hw.
  rewrite legacy_rollover_mk. cbv zeta.
  destruct (60 <=? sc); [|reflexivity].
  destruct (60 <=? u8 (mi + sc / 60)); [|reflexivity].
  destruct (24 <=? u8 (h + u8 (mi + sc / 60) / 60)); [|reflexivity].
  assert (E : u8 (Z.rem (w - 1
                          + u8 (u8 (h + u8 (mi + sc / 60) / 60) mod 24) / 24)
                     7 + 1) = w).
  { pose proof (u8_range (h + u8 (mi + sc / 60) / 60)) as U.
    rewrite (u8_small (u8 (h + u8 (mi + sc / 60) / 60) mod 24)) by euclid.
    replace (u8 (h + u8 (mi + sc / 60) / 60) mod 24 / 24) with 0 by euclid.
    rewrite Z.add_0_r, Z.rem_mod_nonneg by lia.
    rewrite u8_small by euclid. euclid. }
  match goal with
  | |- context [if ?b then _ else _] => destruct b
  end;
    [match goal with
     | |- context [if ?b then _ else _] => destruct b
     end|];
    cbn [dayOfWeek set_year set_month set_day]; exact E.
Qed.

Lemma legacy_updateInternalTime_dayOfWeek (now : Z) (s : Legacy.State) :
  1 <= dayOfWeek (Legacy.currentDateTime s) <= 7 ->
  dayOfWeek (Legacy.currentDateTime (Legacy.updateInternalTime now s))
  = dayOfWeek (Legacy.currentDateTime s).
Proof.
  intros Hw. unfold Legacy.updateInternalTime. cbv zeta.
  destruct (1000 <=? u32 (now - Legacy.lastTimeUpdate s)); [|reflexivity].
  cbn [Legacy.currentDateTime Legacy.set_currentDateTime
       Legacy.set_lastTimeUpdate].
  rewrite legacy_rollover_dayOfWeek; [reflexivity|exact Hw].
Qed.

Lemma legacy_run_cons (e : Legacy.Event) (es : list Legacy.Event)
    (s : Legacy.State) :
  Legacy.run (e :: es) s
  = (fst (Legacy.run es (fst (Legacy.handle e s))),
     snd (Legacy.handle e s)
     ++ snd (Legacy.run es (fst (Legacy.handle e s)))).
Proof.
  cbn [Legacy.run].
  destruct (Legacy.handle e s) as [s1 t1]. cbn [fst snd].
  destruct (Legacy.run es s1) as [s2 t2]. reflexivity.
Qed.

(** What one run of [bleServerCallback] does, branch by branch. *)
Lemma legacy_bleServerCallback_run (p : Legacy.Poll) (s : Legacy.State) :
  Legacy.bleServerCallback p s
  = (fst (Legacy.serveConnection p (fst (fst (Legacy.initialise p s)))),
     snd (fst (Legacy.initialise p s))
     ++ snd (Legacy.serveConnection p (fst (fst (Legacy.initialise p s)))))
    \/
    (Legacy.bleInitialized s = false /\ Legacy.beginOk p = false /\
     Legacy.bleServerCallback p s
     = (s, [Legacy.BleBegin;
            Legacy.Do (SerialPrint "Starting BLE failed!")])).
Proof.
  unfold Legacy.bleServerCallback.
  destruct (Legacy.initialise p s) as [[s1 t1] goOn] eqn:E.
  cbn [fst snd]. destruct goOn.
  - left. destruct (Legacy.serveConnection p s1). reflexivity.
  - right. unfold Legacy.initialise in E.
    destruct (Legacy.bleInitialized s); [discriminate E|].
    destruct (Legacy.beginOk p); cbn in E.
    + discriminate E.
    + injection E as <- <-. repeat split.
Qed.

(** A property of the date-time that [updateInternalTime] keeps is kept by
    every callback: they change the clock through it only. *)
Lemma legacy_handle_clock (P : DateTime -> Prop) :
  (forall now s, P (Legacy.currentDateTime s) ->
                 P (Legacy.currentDateTime (Legacy.updateInternalTime now s)))
  ->
  forall e s, P (Legacy.currentDateTime s) ->
              P (Legacy.currentDateTime (fst (Legacy.handle e s))).
Proof.
  intros H e s Hs.
  destruct e as [|now|p|now];
    unfold Legacy.handle, Legacy.bleServerCallback, Legacy.initialise,
      Legacy.serveConnection, Legacy.updateServiceDataCallback,
      Legacy.updateCurrentTime, Legacy.blinkLedCallback,
      Legacy.updateTimeCallback;
    cbv zeta;
    repeat (match goal with
            | |- context [if ?b then _ else _] => destruct b
            | |- context [match ?o with Some _ => _ | None => _ end] =>
                destruct o
            end; cbn [fst snd negb]);
    repeat apply H; exact Hs.
Qed.

Lemma legacy_handle_dayOfWeek (e : Legacy.Event) (s : Legacy.State) :
  1 <= dayOfWeek (Legacy.currentDateTime s) <= 7 ->
  dayOfWeek (Legacy.currentDateTime (fst (Legacy.handle e s)))
  = dayOfWeek (Legacy.currentDateTime s).
Proof.
  intros Hw.
  apply (legacy_handle_clock
           (fun d => 1 <= dayOfWeek d <= 7 /\
                     dayOfWeek d = dayOfWeek (Legacy.currentDateTime s)));
    [|split; [exact Hw|reflexivity]].
  intros now s0 (R & E).
  rewrite legacy_updateInternalTime_dayOfWeek by exact R.
  split; assumption.
Qed.

(** In the polling revision the day of the week never advances: the cascade
    takes [hour / 24] after it has reduced [hour] below 24, so it adds zero
    days to the day of week at every midnight, and nothing else writes that
    field.  Whatever callbacks run, the day of week stays what it was. *)
Theorem legacy_day_of_week_never_advances (es : list Legacy.Event) :
  forall s : Legacy.State,
  1 <= dayOfWeek (Legacy.currentDateTime s) <= 7 ->
  dayOfWeek (Legacy.currentDateTime (fst (Legacy.run es s)))
  = dayOfWeek (Legacy.currentDateTime s).
Proof.
  induction es as [|e es IH]; intros s Hw; [reflexivity|].
  rewrite legacy_run_cons. cbn [fst].
  pose proof (legacy_handle_dayOfWeek e s Hw) as H.
  rewrite IH by (rewrite H; exact Hw). exact H.
Qed.

(** Across midnight it is still Tuesday (2). *)
Lemma legacy_day_of_week_never_advances_witness :
  day (Legacy.currentDateTime
         (fst (Legacy.run [Legacy.TaskUpdateTime 43200000;
                           Legacy.TaskUpdateTime 43260000]
                 (Legacy.mkState (mkDateTime 2023 10 10 23 59 0 2)
                    true 43140000 false (mkBLEDevice "c0:ff:ee") false))))
  = 11 /\
  dayOfWeek
    (Legacy.currentDateTime
       (fst (Legacy.run [Legacy.TaskUpdateTime 43200000;
                         Legacy.TaskUpdateTime 43260000]
               (Legacy.mkState (mkDateTime 2023 10 10 23 59 0 2)
                  true 43140000 false (mkBLEDevice "c0:ff:ee") false))))
  = 2.
Proof.
  split; [reflexivity|].
  apply (legacy_day_of_week_never_advances
           [Legacy.TaskUpdateTime 43200000; Legacy.TaskUpdateTime 43260000]
           (Legacy.mkState (mkDateTime 2023 10 10 23 59 0 2)
              true 43140000 false (mkBLEDevice "c0:ff:ee") false)).
  cbn. lia.
Defined.

(** ** The two revisions of the clock side by side *)

Lemma monthLoop_single_carry (n : nat) (y m dd h mi sc w : Z) :
  1 <= m <= 12 -> 1 <= dd <= daysInMonth y m ->
  monthLoop (S n) (mkDateTime y m (dd + 1) h mi sc w)
  = if daysInMonth y m <? dd + 1 then
      if 12 <? m + 1 then mkDateTime (u16 (y + 1)) 1 1 h mi sc w
      else mkDateTime y (m + 1) 1 h mi sc w
    else mkDateTime y m (dd + 1) h mi sc w.
Proof.
  intros Hm Hd. cbn [monthLoop year month day].
  destruct (Z.ltb_spec (daysInMonth y m) (dd + 1)) as [L|L]; [|reflexivity].
  unfold monthCarry. cbv zeta. fields.
  replace (dd + 1 - daysInMonth y m) with 1 by lia.
  rewrite (u8_small (m + 1)) by lia. change (u8 1) with 1.
  destruct (12 <? m + 1); fields; apply monthLoop_exit; fields.
  - pose proof (daysInMonth_bounds (u16 (y + 1)) 1). lia.
  - pose proof (daysInMonth_bounds y (m + 1)). lia.
Qed.

Lemma legacy_rollover_agrees (d : DateTime) :
  0 <= second d < 256 ->
  1 <= month d <= 12 ->
  1 <= day d <= daysInMonth (year d) (month d) ->
  0 <= hour d < 24 -> 0 <= minute d < 60 -> 1 <= dayOfWeek d <= 7 ->
  Legacy.rollover d = set_dayOfWeek (dayOfWeek d) (rollover d).
Proof.
  destruct d as [y m dd h mi s w].
  cbn [second month day hour minute dayOfWeek year].
  intros Hs Hm Hd Hh Hmi Hw.
  rewrite legacy_rollover_mk, rollover_mk. cbv zeta.
  destruct (Z.leb_spec 60 s) as [S60|S60]; [|reflexivity].
  rewrite (u8_small (mi + s / 60)) by euclid.
  destruct (Z.leb_spec 60 (mi + s / 60)) as [M60|M60]; [|reflexivity].
  assert (Hq : (mi + s / 60) / 60 = 1) by euclid.
  rewrite Hq.
  rewrite (u8_small (h + 1)) by lia.
  destruct (Z.leb_spec 24 (h + 1)) as [H24|H24]; [|reflexivity].
  assert (Hh23 : h = 23) by lia. subst h.
  change ((23 + 1) / 24) with 1. change ((23 + 1) mod 24) with 0.
  change (u8 1) with 1. change (u8 0) with 0.
  change (0 / 24) with 0.
  pose proof (daysInMonth_bounds y m) as B.
  rewrite (u8_small (dd + 1)) by lia.
  rewrite Z.add_0_r.
  rewrite (Z.rem_mod_nonneg (w - 1) 7) by lia.
  replace (u8 ((w - 1) mod 7 + 1)) with w
    by (rewrite u8_small by euclid; euclid).
  rewrite legacy_monthDays. cbn [year month day].
  unfold monthLoopFuel. rewrite monthLoop_single_carry by lia.
  rewrite (u8_small (m + 1)) by lia.
  destruct (daysInMonth y m <? dd + 1); [|reflexivity].
  destruct (12 <? m + 1); reflexivity.
Qed.

Lemma legacy_reference (now l : Z) :
  u32 (now - u32 (now - l) mod 1000)
  = u32 (l + u32 (u32 (now - l) / 1000 * 1000)).
Proof.
  pose proof (u32_range (now - l)) as R.
  change (2 ^ 32) with 4294967296 in R.
  set (e := u32 (now - l)) in *.
  rewrite (u32_small (e / 1000 * 1000))
    by (change (2 ^ 32) with 4294967296; euclid).
  replace (e / 1000 * 1000) with (e - e mod 1000) by euclid.
  subst e. unfold u32.
  replace (l + ((now - l) mod 2 ^ 32 - ((now - l) mod 2 ^ 32) mod 1000))
    with ((now - l) mod 2 ^ 32
          + (l - ((now - l) mod 2 ^ 32) mod 1000)) by ring.
  rewrite Zplus_mod_idemp_l. f_equal. ring.
Qed.

(** On a clock at rest the two revisions of [updateInternalTime] compute
    the same reference and the same date-time, field for field, except for
    the day of week, which the polling revision leaves as it was and the
    handler revision advances. *)
Theorem legacy_agrees_except_day_of_week
    (now : Z) (s : State) (ls : Legacy.State) :
  Legacy.currentDateTime ls = currentDateTime s ->
  Legacy.lastTimeUpdate ls = lastTimeUpdateMillis s ->
  fits_layout (currentDateTime s) -> atRest (currentDateTime s) ->
  Legacy.currentDateTime (Legacy.updateInternalTime now ls)
  = set_dayOfWeek (dayOfWeek (currentDateTime s))
      (currentDateTime (updateInternalTime now s)) /\
  Legacy.lastTimeUpdate (Legacy.updateInternalTime now ls)
  = lastTimeUpdateMillis (updateInternalTime now s).
Proof.
  intros Ed El F R.
  pose proof F as (Hy & Hm & Hd & Hh & Hmi & Hs & Hw).
  pose proof R as (Rm & Rd & Rh & Rmi & Rs & Rw).
  unfold Legacy.updateInternalTime, updateInternalTime. cbv zeta.
  rewrite ?El, ?Ed.
  destruct (1000 <=? u32 (now - lastTimeUpdateMillis s)).
  - cbn [Legacy.currentDateTime Legacy.lastTimeUpdate
         Legacy.set_currentDateTime Legacy.set_lastTimeUpdate
         currentDateTime lastTimeUpdateMillis set_currentDateTime
         set_lastTimeUpdateMillis].
    rewrite ?Ed, ?El.
    rewrite (u32_small (u32 (now - lastTimeUpdateMillis s) / 1000)).
    2:{ pose proof (u32_range (now - lastTimeUpdateMillis s)) as U.
        change (2 ^ 32) with 4294967296 in *. euclid. }
    split; [|apply legacy_reference].
    pose proof (u8_range
                  (u32 (second (currentDateTime s)
                        + u32 (now - lastTimeUpdateMillis s) / 1000))) as U.
    rewrite legacy_rollover_agrees; fields; try lia.
    reflexivity.
  - rewrite ?Ed, ?El. split; [|reflexivity].
    destruct (currentDateTime s); reflexivity.
Qed.

(** New Year's Eve, a Sunday: both reach 2025-01-01 00:00:00, the handler
    revision on Monday (1), the polling revision still on Sunday (7). *)
Lemma legacy_agrees_except_day_of_week_witness :
  Legacy.currentDateTime
    (Legacy.updateInternalTime 1000
       (Legacy.mkState (mkDateTime 2024 12 31 23 59 59 7) true 0 false
                       (mkBLEDevice "c0:ff:ee") false))
  = mkDateTime 2025 1 1 0 0 0 7 /\
  currentDateTime
    (updateInternalTime 1000
       (mkState (mkDateTime 2024 12 31 23 59 59 7) 0 false
                (mkBLEDevice "c0:ff:ee") false true))
  = mkDateTime 2025 1 1 0 0 0 1.
Proof.
  split; [|reflexivity].
  destruct (legacy_agrees_except_day_of_week 1000
              (mkState (mkDateTime 2024 12 31 23 59 59 7) 0 false
                       (mkBLEDevice "c0:ff:ee") false true)
              (Legacy.mkState (mkDateTime 2024 12 31 23 59 59 7) true 0
                              false (mkBLEDevice "c0:ff:ee") false))
    as (E & _).
  - reflexivity.
  - reflexivity.
  - unfold fits_layout. cbn. lia.
  - unfold atRest. cbn. lia.
  - rewrite E. reflexivity.
Defined.

(** ** Its byte order *)

(** The polling revision sends the day of week before the hour.  Read with
    the parser of the handler revision, its ten bytes give the right date but
    the day of week as the hour, the hour as the minute, the minute as the
    second and the second as the day of week. *)
Theorem legacy_layout_read_by_later_parser (d : DateTime) :
  fits_layout d ->
  parseCurrentTime (Legacy.timeData d)
  = mkDateTime (year d) (month d) (day d)
               (dayOfWeek d) (hour d) (minute d) (second d).
Proof.
  intros (Hy & _).
  destruct (timeData_year_bytes (year d) Hy) as (E0 & E1).
  unfold parseCurrentTime, Legacy.timeData, byteAt. cbn [nth].
  rewrite E0, E1.
  rewrite lor_shiftl_8 by euclid.
  rewrite u16_small by euclid.
  f_equal. euclid.
Qed.

Lemma legacy_layout_read_by_later_parser_witness :
  parseCurrentTime (Legacy.timeData (mkDateTime 2023 10 10 12 0 30 2))
  = mkDateTime 2023 10 10 2 12 0 30 /\
  validTime (mkDateTime 2023 10 10 2 12 0 30) = false.
Proof.
  split; [|reflexivity].
  apply (legacy_layout_read_by_later_parser
           (mkDateTime 2023 10 10 12 0 30 2)).
  unfold fits_layout. cbn. lia.
Defined.

(** ** Its BLE server task *)

Lemma legacy_update_frame (now : Z) (s : Legacy.State) :
  Legacy.bleInitialized (Legacy.updateInternalTime now s)
  = Legacy.bleInitialized s /\
  Legacy.centralConnected (Legacy.updateInternalTime now s)
  = Legacy.centralConnected s /\
  Legacy.connectedCentral (Legacy.updateInternalTime now s)
  = Legacy.connectedCentral s /\
  Legacy.ledState (Legacy.updateInternalTime now s) = Legacy.ledState s.
Proof.
  unfold Legacy.updateInternalTime. cbv zeta.
  destruct (1000 <=? u32 (now - Legacy.lastTimeUpdate s));
    repeat split; reflexivity.
Qed.

Lemma legacy_poll_initialised (p : Legacy.Poll) (s : Legacy.State) :
  Legacy.bleInitialized s = true ->
  Legacy.bleServerCallback p s = Legacy.serveConnection p s.
Proof.
  intros I. unfold Legacy.bleServerCallback, Legacy.initialise.
  rewrite I. cbn [negb].
  destruct (Legacy.serveConnection p s). reflexivity.
Qed.

Lemma effects_app (t1 t2 : list Legacy.Command) :
  Legacy.effects (t1 ++ t2) = Legacy.effects t1 ++ Legacy.effects t2.
Proof.
  induction t1 as [|c t1 IH]; [reflexivity|].
  destruct c; cbn [app Legacy.effects]; rewrite IH; reflexivity.
Qed.

Lemma begins_app (t1 t2 : list Legacy.Command) :
  Legacy.begins (t1 ++ t2) = (Legacy.begins t1 + Legacy.begins t2)%nat.
Proof.
  induction t1 as [|c t1 IH]; [reflexivity|].
  destruct c; cbn [app Legacy.begins]; rewrite IH; reflexivity.
Qed.

Lemma writesOf_app (c : Characteristic) (t1 t2 : list Effect) :
  writesOf c (t1 ++ t2) = (writesOf c t1 + writesOf c t2)%nat.
Proof. unfold writesOf. rewrite filter_app. apply length_app. Qed.

Lemma advertising_app (t1 t2 : list Effect) :
  advertising (t1 ++ t2) = advertising t1 ++ advertising t2.
Proof. unfold advertising. apply filter_app. Qed.

(** One callback: the link is up only on an initialised stack, the stack
    stays initialised, and a callback that leaves the stack uninitialised
    has written and advertised nothing. *)
Lemma legacy_handle_gate (e : Legacy.Event) (s : Legacy.State) :
  (Legacy.centralConnected s = true -> Legacy.bleInitialized s = true) ->
  let s' := fst (Legacy.handle e s) in
  let t := Legacy.effects (snd (Legacy.handle e s)) in
  (Legacy.centralConnected s' = true -> Legacy.bleInitialized s' = true) /\
  (Legacy.bleInitialized s = true -> Legacy.bleInitialized s' = true) /\
  (Legacy.bleInitialized s' = false ->
   (forall c, writesOf c t = O) /\ advertising t = []).
Proof.
  intros Inv. cbv zeta.
  destruct (Legacy.bleInitialized s) eqn:I;
    destruct (Legacy.centralConnected s) eqn:C;
    try (specialize (Inv eq_refl); discriminate Inv);
    destruct e as [|now|p|now];
    unfold Legacy.handle, Legacy.bleServerCallback, Legacy.initialise,
      Legacy.serveConnection, Legacy.updateServiceDataCallback,
      Legacy.updateCurrentTime, Legacy.blinkLedCallback,
      Legacy.updateTimeCallback;
    cbv zeta;
    repeat first
      [ rewrite I
      | rewrite C
      | rewrite (proj1 (legacy_update_frame _ _))
      | rewrite (proj1 (proj2 (legacy_update_frame _ _)))
      | progress cbn [fst snd negb Legacy.bleInitialized
                      Legacy.centralConnected Legacy.set_bleInitialized
                      Legacy.set_centralConnected Legacy.set_connectedCentral
                      Legacy.set_ledState]
      | match goal with
        | |- context [if ?b then _ else _] => destruct b
        | |- context [match ?o with Some _ => _ | None => _ end] =>
            destruct o
        end ];
    repeat split; intros; try discriminate; try reflexivity;
    try match goal with
        | c : Characteristic |- _ => destruct c; reflexivity
        end.
Qed.

(** Nothing reaches the radio before [BLE.begin()] has succeeded: over any
    sequence of callbacks from a state where no link is up without an
    initialised stack (as when the sketch starts), the same still holds at
    the end, an initialised stack stays initialised, and if the stack is
    still uninitialised at the end then no characteristic was written and no
    advertising was started during the whole sequence. *)
Theorem legacy_nothing_before_begin_succeeds (es : list Legacy.Event) :
  forall s : Legacy.State,
  (Legacy.centralConnected s = true -> Legacy.bleInitialized s = true) ->
  let s' := fst (Legacy.run es s) in
  let t := Legacy.effects (snd (Legacy.run es s)) in
  (Legacy.centralConnected s' = true -> Legacy.bleInitialized s' = true) /\
  (Legacy.bleInitialized s = true -> Legacy.bleInitialized s' = true) /\
  (Legacy.bleInitialized s' = false ->
   (forall c, writesOf c t = O) /\ advertising t = []).
Proof.
  induction es as [|e es IH]; intros s Inv; cbv zeta.
  - cbn. repeat split; auto.
  - rewrite legacy_run_cons. cbn [fst snd].
    destruct (legacy_handle_gate e s Inv) as (H1 & H2 & H3).
    destruct (IH (fst (Legacy.handle e s)) H1) as (I1 & I2 & I3).
    split; [exact I1|]. split; [auto|].
    intros Off.
    assert (Off1 : Legacy.bleInitialized (fst (Legacy.handle e s)) = false).
    { destruct (Legacy.bleInitialized (fst (Legacy.handle e s))) eqn:B;
        [|reflexivity].
      rewrite (I2 eq_refl) in Off. discriminate Off. }
    destruct (H3 Off1) as (W1 & A1). destruct (I3 Off) as (W2 & A2).
    rewrite effects_app. split.
    + intros c. rewrite writesOf_app, W1, W2. reflexivity.
    + rewrite advertising_app, A1, A2. reflexivity.
Qed.

Lemma legacy_nothing_before_begin_succeeds_witness :
  advertising
    (Legacy.effects
       (snd (Legacy.run
               [Legacy.TaskBleServer
                  (Legacy.mkPoll false "aa:bb" 100 100 false
                                 (Some (mkBLEDevice "c0:ff:ee")));
                Legacy.TaskUpdateServiceData 1200]
               Legacy.initialState)))
  = [].
Proof.
  pose proof (legacy_nothing_before_begin_succeeds
                [Legacy.TaskBleServer
                   (Legacy.mkPoll false "aa:bb" 100 100 false
                                  (Some (mkBLEDevice "c0:ff:ee")));
                 Legacy.TaskUpdateServiceData 1200]
                Legacy.initialState) as H.
  cbv zeta in H. destruct H as (_ & _ & H); [discriminate|].
  destruct (H eq_refl) as (_ & A). exact A.
Defined.

Lemma legacy_handle_begins (e : Legacy.Event) (s : Legacy.State) :
  Legacy.bleInitialized s = true ->
  Legacy.bleInitialized (fst (Legacy.handle e s)) = true /\
  Legacy.begins (snd (Legacy.handle e s)) = O.
Proof.
  intros I.
  destruct e as [|now|p|now];
    unfold Legacy.handle, Legacy.bleServerCallback, Legacy.initialise,
      Legacy.serveConnection, Legacy.updateServiceDataCallback,
      Legacy.updateCurrentTime, Legacy.blinkLedCallback,
      Legacy.updateTimeCallback;
    cbv zeta;
    repeat first
      [ rewrite I
      | rewrite (proj1 (legacy_update_frame _ _))
      | progress cbn [fst snd negb Legacy.bleInitialized
                      Legacy.set_bleInitialized
                      Legacy.set_centralConnected Legacy.set_connectedCentral
                      Legacy.set_ledState]
      | match goal with
        | |- context [if ?b then _ else _] => destruct b
        | |- context [match ?o with Some _ => _ | None => _ end] =>
            destruct o
        end ];
    split; reflexivity.
Qed.

(** [BLE.begin()] is tried once by every run of the server task that finds
    the stack uninitialised, and the stack is initialised afterwards exactly
    if it was already or the call succeeded; once the stack is initialised,
    no callback ever calls [BLE.begin()] again. *)
Theorem legacy_begin_only_until_success
    (p : Legacy.Poll) (es : list Legacy.Event) (s : Legacy.State) :
  Legacy.begins (snd (Legacy.bleServerCallback p s))
  = (if Legacy.bleInitialized s then O else 1%nat) /\
  Legacy.bleInitialized (fst (Legacy.bleServerCallback p s))
  = Legacy.bleInitialized s || Legacy.beginOk p /\
  (Legacy.bleInitialized s = true ->
   Legacy.begins (snd (Legacy.run es s)) = O).
Proof.
  split; [|split].
  - destruct (Legacy.bleInitialized s) eqn:I.
    + apply (legacy_handle_begins (Legacy.TaskBleServer p) s I).
    + unfold Legacy.bleServerCallback, Legacy.initialise,
        Legacy.serveConnection, Legacy.updateCurrentTime.
      rewrite I. cbv zeta. cbn [negb].
      repeat (match goal with
              | |- context [if ?b then _ else _] => destruct b
              | |- context [match ?o with Some _ => _ | None => _ end] =>
                  destruct o
              end; cbn [fst snd negb]);
        reflexivity.
  - destruct (Legacy.bleInitialized s) eqn:I.
    + apply (legacy_handle_begins (Legacy.TaskBleServer p) s I).
    + unfold Legacy.bleServerCallback, Legacy.initialise,
        Legacy.serveConnection, Legacy.updateCurrentTime.
      rewrite I. cbv zeta. cbn [negb orb].
      destruct (Legacy.beginOk p); [|cbn [fst]; exact I].
      repeat (match goal with
              | |- context [if ?b then _ else _] => destruct b
              | |- context [match ?o with Some _ => _ | None => _ end] =>
                  destruct o
              end; cbn [fst snd negb]);
        repeat first
          [ rewrite (proj1 (legacy_update_frame _ _))
          | progress cbn [Legacy.bleInitialized Legacy.set_bleInitialized
                          Legacy.set_centralConnected
                          Legacy.set_connectedCentral] ];
        reflexivity.
  - revert s. induction es as [|e es IH]; intros s I; [reflexivity|].
    rewrite legacy_run_cons. cbn [snd].
    destruct (legacy_handle_begins e s I) as (I1 & B1).
    rewrite begins_app, B1, (IH _ I1). reflexivity.
Qed.

Lemma legacy_begin_only_until_success_witness :
  Legacy.begins
    (snd (Legacy.run
            [Legacy.TaskBleServer
               (Legacy.mkPoll false "aa:bb" 100 100 false None);
             Legacy.TaskBleServer
               (Legacy.mkPoll true "aa:bb" 200 200 false None);
             Legacy.TaskBleServer
               (Legacy.mkPoll true "aa:bb" 300 300 false None)]
            Legacy.initialState))
  = 2%nat /\
  Legacy.begins
    (snd (Legacy.run
            [Legacy.TaskBleServer
               (Legacy.mkPoll true "aa:bb" 300 300 false None)]
            (Legacy.set_bleInitialized true Legacy.initialState)))
  = O.
Proof.
  split; [reflexivity|].
  apply (legacy_begin_only_until_success
           (Legacy.mkPoll true "aa:bb" 300 300 false None)
           [Legacy.TaskBleServer
              (Legacy.mkPoll true "aa:bb" 300 300 false None)]
           (Legacy.set_bleInitialized true Legacy.initialState)).
  reflexivity.
Defined.

(** The connection part of the server task, on an initialised stack.  A
    link that is still up gets the Current Time written once and nothing
    else; a link found down is forgotten and advertising is started again,
    with nothing written; a new central is remembered and gets each of the
    three characteristics once; with no central waiting nothing happens at
    all. *)
Theorem legacy_poll_lifecycle (p : Legacy.Poll) (s : Legacy.State) :
  Legacy.bleInitialized s = true ->
  let s' := fst (Legacy.bleServerCallback p s) in
  let t := Legacy.effects (snd (Legacy.bleServerCallback p s)) in
  if Legacy.centralConnected s then
    if Legacy.stillConnected p then
      Legacy.centralConnected s' = true /\
      snapshotWrites t = (1%nat, O, O) /\ advertising t = []
    else
      Legacy.centralConnected s' = false /\
      snapshotWrites t = (O, O, O) /\ advertising t = [Advertise]
  else
    match Legacy.central p with
    | Some c =>
        Legacy.centralConnected s' = true /\
        Legacy.connectedCentral s' = c /\
        snapshotWrites t = (1%nat, 1%nat, 1%nat) /\ advertising t = []
    | None => Legacy.bleServerCallback p s = (s, [])
    end.
Proof.
  intros I. cbv zeta. rewrite (legacy_poll_initialised p s I).
  unfold Legacy.serveConnection, Legacy.updateCurrentTime. cbv zeta.
  destruct (Legacy.centralConnected s) eqn:C.
  - destruct (Legacy.stillConnected p); cbn [negb fst snd].
    + rewrite (proj1 (proj2 (legacy_update_frame _ _))), C.
      repeat split.
    + repeat split.
  - destruct (Legacy.central p) as [c|]; [|reflexivity].
    cbn [fst snd].
    destruct (legacy_update_frame (Legacy.pollMillis p)
                (Legacy.set_centralConnected true
                   (Legacy.set_connectedCentral c s)))
      as (_ & F2 & F3 & _).
    rewrite F2, F3. repeat split.
Qed.

Lemma legacy_poll_lifecycle_witness :
  Legacy.bleServerCallback
    (Legacy.mkPoll true "aa:bb" 100 100 false None)
    (Legacy.set_bleInitialized true Legacy.initialState)
  = (Legacy.set_bleInitialized true Legacy.initialState, []).
Proof.
  exact (legacy_poll_lifecycle
           (Legacy.mkPoll true "aa:bb" 100 100 false None)
           (Legacy.set_bleInitialized true Legacy.initialState) eq_refl).
Defined.

(** The first successful run of the server task does not stop after
    setting up the stack: it goes on to look for a central in the same run.
    If one is already waiting, each of the three characteristics is written
    twice in that run, once by the set-up and once for the new connection,
    and advertising is started once. *)
Theorem legacy_first_poll_with_central_waiting
    (p : Legacy.Poll) (c : BLEDevice) (s : Legacy.State) :
  Legacy.bleInitialized s = false -> Legacy.centralConnected s = false ->
  Legacy.beginOk p = true -> Legacy.central p = Some c ->
  let s' := fst (Legacy.bleServerCallback p s) in
  let t := Legacy.effects (snd (Legacy.bleServerCallback p s)) in
  Legacy.bleInitialized s' = true /\
  Legacy.centralConnected s' = true /\
  Legacy.connectedCentral s' = c /\
  snapshotWrites t = (2%nat, 2%nat, 2%nat) /\
  advertising t = [Advertise].
Proof.
  intros I C B Ce. cbv zeta.
  unfold Legacy.bleServerCallback, Legacy.initialise,
    Legacy.serveConnection, Legacy.updateCurrentTime.
  rewrite I, B. cbv zeta. cbn [negb fst snd].
  rewrite (proj1 (proj2 (legacy_update_frame _ _))).
  cbn [Legacy.centralConnected Legacy.set_bleInitialized]. rewrite C, Ce.
  cbn [fst snd].
  destruct (legacy_update_frame (Legacy.pollMillis p)
              (Legacy.set_centralConnected true
                 (Legacy.set_connectedCentral c
                    (Legacy.updateInternalTime (Legacy.initMillis p)
                       (Legacy.set_bleInitialized true s)))))
    as (F1 & F2 & F3 & _).
  rewrite F1, F2, F3.
  cbn [Legacy.bleInitialized Legacy.centralConnected Legacy.connectedCentral
       Legacy.set_centralConnected Legacy.set_connectedCentral].
  rewrite (proj1 (legacy_update_frame _ _)).
  repeat split.
Qed.

Lemma legacy_first_poll_with_central_waiting_witness :
  snapshotWrites
    (Legacy.effects
       (snd (Legacy.bleServerCallback
               (Legacy.mkPoll true "aa:bb" 100 105 false
                              (Some (mkBLEDevice "c0:ff:ee")))
               Legacy.initialState)))
  = (2%nat, 2%nat, 2%nat).
Proof.
  destruct (legacy_first_poll_with_central_waiting
              (Legacy.mkPoll true "aa:bb" 100 105 false
                             (Some (mkBLEDevice "c0:ff:ee")))
              (mkBLEDevice "c0:ff:ee") Legacy.initialState
              eq_refl eq_refl eq_refl eq_refl) as (_ & _ & _ & W & _).
  exact W.
Defined.
